(** * Normalisation of the Superstore export (normalize.py)

    A shallow embedding of [normalize_superstore_data]: the flat sales
    export is decomposed into seven tables (customers, locations,
    categories, sub-categories, products, orders, order details), each
    written as a CSV file below [output_dir].

    Modelling conventions.
    - A DataFrame is the list of its rows, in index order; the rows of the
      input frame are typed records ([Raw.row]) holding the columns the
      script reads, every cell present.
    - Text cells are [string]s, compared character by character; integer
      cells are [Z], the Quantity column an [int64] whose sums wrap around;
      a cell of a float column (Sales, Discount, Profit) is the rational [Q]
      it denotes and [sumQ], [meanQ] are the exact sum and mean, of which the
      float64 aggregates of pandas are roundings: what is stated of
      aggregated Sales, Discount and Profit is stated only where the float64
      result is exact, and compared with [==].
    - The pandas operations used by the script ([drop_duplicates], [unique],
      [merge], [groupby] with [agg]) are list functions written after their
      documented behaviour: first occurrence kept, inner join in the order of
      the left frame, groups emitted in ascending key order.
    - The file system is a finite map from paths to written tables together
      with the set of directories; writes are assumed to succeed. *)

From Stdlib Require Import QArith.
From stdpp Require Import base list strings gmap sorting.

Set Warnings "-clear-no-such-hyp".

Local Close Scope Q_scope.
Local Open Scope Z_scope.

(** ** 64-bit integer cells *)

Definition in_int64 (z : Z) : bool := (- 2 ^ 63 <=? z) && (z <? 2 ^ 63).

(** Reduction of an integer to the int64 of the same residue modulo 2^64. *)
Definition wrap64 (z : Z) : Z := (z + 2 ^ 63) mod 2 ^ 64 - 2 ^ 63.

(** A cell of an int64 column. *)
Record int64 := {
  int64_to_Z :> Z;
  int64_in_range : in_int64 int64_to_Z = true
}.

Definition int64_of_Z (z : Z) : int64 :=
  match in_int64 (wrap64 z) as b return in_int64 (wrap64 z) = b → int64 with
  | true => λ H, {| int64_to_Z := wrap64 z; int64_in_range := H |}
  | false => λ _, {| int64_to_Z := 0; int64_in_range := eq_refl |}
  end eq_refl.

(** The sum of an int64 column as pandas accumulates it, row after row in
    an int64 that wraps around on overflow. *)
Definition sum_int64 (xs : list int64) : Z :=
  foldl (λ acc (x : int64), wrap64 (acc + x)) 0 xs.

(** ** The input frame *)

Module Raw.
Record row := {
  Customer_ID : string;  Customer_Name : string;  Segment : string;
  Postal_Code : Z;  City : string;  State : string;  Region : string;
  Category : string;  Sub_Category : string;
  Product_ID : string;  Product_Name : string;
  Order_ID : string;  Order_Date : string;  Ship_Date : string;
  Ship_Mode : string;
  Sales : Q;  Quantity : int64;  Discount : Q;  Profit : Q
}.
End Raw.

Abbreviation DataFrame := (list Raw.row).

(** ** The seven output tables (columns after [rename]) *)

Module Customers.
Record row := { CustomerID : string; CustomerName : string; Segment : string }.
End Customers.

Module Locations.
Record row := { PostalCode : Z; City : string; State : string; Region : string }.
End Locations.

Module Categories.
Record row := { CategoryID : Z; CategoryName : string }.
End Categories.

Module SubCategories.
Record row := { SubCategoryID : Z; SubCategoryName : string; CategoryID : Z }.
End SubCategories.

Module Products.
Record row := { ProductID : string; ProductName : string; SubCategoryID : Z }.
End Products.

Module Orders.
Record row := {
  OrderID : string; OrderDate : string; ShipDate : string;
  ShipMode : string; CustomerID : string; PostalCode : Z
}.
End Orders.

Module OrderDetails.
Record row := {
  OrderID : string; ProductID : string;
  Sales : Q; Quantity : Z; Discount : Q; Profit : Q
}.
End OrderDetails.

(** ** pandas operations on frames *)

Section pandas.
Context {A K : Type} `{Countable K}.

(** One pass over the rows with the table of keys seen so far: a row is
    kept when its key is new ([keep='first']). *)
Fixpoint dedup_from (key : A → K) (seen : gset K) (rows : list A) : list A :=
  match rows with
  | [] => []
  | r :: rest =>
      if decide (key r ∈ seen) then dedup_from key seen rest
      else r :: dedup_from key ({[key r]} ∪ seen) rest
  end.

(** [DataFrame.drop_duplicates(subset=...)] followed by
    [reset_index(drop=True)]: the list position is the new index. *)
Definition drop_duplicates (key : A → K) (rows : list A) : list A :=
  dedup_from key ∅ rows.
End pandas.

(** [Series.unique()]: the distinct values in order of first appearance. *)
Definition unique {K} `{Countable K} (values : list K) : list K :=
  drop_duplicates id values.

(** [pd.merge(left, right, on=...)], an inner join: every left row is paired
    with each right row of equal key; a left row without partner contributes
    nothing. The result follows the order of the left frame, as pandas
    documents for [how='inner'] (releases before 2.2 grouped the rows of
    equal key together instead). *)
Definition merge {A B C K} `{EqDecision K}
    (on_left : A → K) (on_right : B → K) (join : A → B → C)
    (left : list A) (right : list B) : list C :=
  l ← left; join l <$> filter (λ r, on_right r = on_left l) right.

(** Comparison of two-element tuples of strings, as Python compares them:
    the first components decide unless they are equal. *)
Definition tuple_le (a b : string * string) : Prop :=
  if decide (a.1 = b.1) then String.le a.2 b.2 else String.le a.1 b.1.

Global Instance tuple_le_dec : RelDecision tuple_le.
Proof. intros a b. unfold tuple_le. destruct (decide (a.1 = b.1)); apply _. Defined.

Definition tuple_lt (a b : string * string) : Prop := tuple_le a b ∧ a ≠ b.

(** [df.groupby(by)]: the distinct keys in ascending order ([sort=True]),
    each with the rows of its group in frame order. pandas leaves out the
    rows with a missing key cell ([dropna=True]); the rows of a frame here
    have every cell, so there is none to leave out. *)
Definition groupby {A} (by_ : A → string * string) (df : list A)
    : list ((string * string) * list A) :=
  (λ k, (k, filter (λ r, by_ r = k) df)) <$> merge_sort tuple_le (unique (by_ <$> df)).

(** The exact sum and mean of the values of a float column; the float64
    results of ['sum'] and ['mean'] are these values up to rounding. *)
Definition sumQ (xs : list Q) : Q := foldr Qplus 0%Q xs.
Definition meanQ (xs : list Q) : Q := (sumQ xs / inject_Z (Z.of_nat (length xs)))%Q.

(** ** The extraction steps of [normalize_superstore_data] *)

(** Column selection and renaming, row by row. *)
Definition customer_columns (r : Raw.row) : Customers.row :=
  {| Customers.CustomerID := Raw.Customer_ID r;
     Customers.CustomerName := Raw.Customer_Name r;
     Customers.Segment := Raw.Segment r |}.

Definition location_columns (r : Raw.row) : Locations.row :=
  {| Locations.PostalCode := Raw.Postal_Code r;
     Locations.City := Raw.City r;
     Locations.State := Raw.State r;
     Locations.Region := Raw.Region r |}.

Definition order_columns (r : Raw.row) : Orders.row :=
  {| Orders.OrderID := Raw.Order_ID r;
     Orders.OrderDate := Raw.Order_Date r;
     Orders.ShipDate := Raw.Ship_Date r;
     Orders.ShipMode := Raw.Ship_Mode r;
     Orders.CustomerID := Raw.Customer_ID r;
     Orders.PostalCode := Raw.Postal_Code r |}.

Definition df_customers (df : DataFrame) : list Customers.row :=
  drop_duplicates Customers.CustomerID (customer_columns <$> df).

Definition df_locations (df : DataFrame) : list Locations.row :=
  drop_duplicates Locations.PostalCode (location_columns <$> df).

Definition df_categories (df : DataFrame) : list Categories.row :=
  imap (λ index name, {| Categories.CategoryID := Z.of_nat index + 1;
                         Categories.CategoryName := name |})
       (unique (Raw.Category <$> df)).

(** The (CategoryName, SubCategoryName) columns of an input row. *)
Definition category_pair (r : Raw.row) : string * string :=
  (Raw.Category r, Raw.Sub_Category r).

(** Lines 60-66, with the categories table as produced upstream. *)
Definition sub_categories_step (df : DataFrame) (categories : list Categories.row)
    : list SubCategories.row :=
  let pairs := drop_duplicates id (category_pair <$> df) in
  let merged :=
    merge fst Categories.CategoryName
          (λ p c, (p.1, p.2, Categories.CategoryID c)) pairs categories in
  imap (λ index m, {| SubCategories.SubCategoryID := Z.of_nat index + 1;
                      SubCategories.SubCategoryName := m.1.2;
                      SubCategories.CategoryID := m.2 |}) merged.

Definition df_sub_categories (df : DataFrame) : list SubCategories.row :=
  sub_categories_step df (df_categories df).

(** Lines 73-78, with the sub-categories table as produced upstream. *)
Definition products_step (df : DataFrame) (sub_categories : list SubCategories.row)
    : list Products.row :=
  let products :=
    drop_duplicates (λ p : string * string * string, p.1.1)
      ((λ r, (Raw.Product_ID r, Raw.Product_Name r, Raw.Sub_Category r)) <$> df) in
  merge (λ p : string * string * string, p.2) snd
        (λ p s, {| Products.ProductID := p.1.1;
                   Products.ProductName := p.1.2;
                   Products.SubCategoryID := s.1 |})
        products
        ((λ s, (SubCategories.SubCategoryID s, SubCategories.SubCategoryName s))
           <$> sub_categories).

Definition df_products (df : DataFrame) : list Products.row :=
  products_step df (df_sub_categories df).

Definition df_orders (df : DataFrame) : list Orders.row :=
  drop_duplicates Orders.OrderID (order_columns <$> df).

(** The grouping columns of an input row, and the composite key of an
    order-details row. *)
Definition order_key (r : Raw.row) : string * string :=
  (Raw.Order_ID r, Raw.Product_ID r).

Definition detail_key (d : OrderDetails.row) : string * string :=
  (OrderDetails.OrderID d, OrderDetails.ProductID d).

Definition agg (group : (string * string) * list Raw.row) : OrderDetails.row :=
  {| OrderDetails.OrderID := group.1.1;
     OrderDetails.ProductID := group.1.2;
     OrderDetails.Sales := sumQ (Raw.Sales <$> group.2);
     OrderDetails.Quantity := sum_int64 (Raw.Quantity <$> group.2);
     OrderDetails.Discount := meanQ (Raw.Discount <$> group.2);
     OrderDetails.Profit := sumQ (Raw.Profit <$> group.2) |}.

Definition df_order_details (df : DataFrame) : list OrderDetails.row :=
  agg <$> groupby order_key df.

(** ** Writing the tables: CSV files on disk *)

Inductive Cell := Text (s : string) | Int (z : Z) | Float (q : Q).

(** A CSV file as written by [to_csv(index=False)]: the header line and the
    data lines. *)
Record CsvFile := { header : list string; body : list (list Cell) }.

Definition customers_csv (t : list Customers.row) : CsvFile :=
  {| header := ["CustomerID"; "CustomerName"; "Segment"];
     body := (λ c, [Text (Customers.CustomerID c); Text (Customers.CustomerName c);
                    Text (Customers.Segment c)]) <$> t |}.

Definition locations_csv (t : list Locations.row) : CsvFile :=
  {| header := ["PostalCode"; "City"; "State"; "Region"];
     body := (λ l, [Int (Locations.PostalCode l); Text (Locations.City l);
                    Text (Locations.State l); Text (Locations.Region l)]) <$> t |}.

Definition categories_csv (t : list Categories.row) : CsvFile :=
  {| header := ["CategoryID"; "CategoryName"];
     body := (λ c, [Int (Categories.CategoryID c); Text (Categories.CategoryName c)]) <$> t |}.

Definition sub_categories_csv (t : list SubCategories.row) : CsvFile :=
  {| header := ["SubCategoryID"; "SubCategoryName"; "CategoryID"];
     body := (λ s, [Int (SubCategories.SubCategoryID s);
                    Text (SubCategories.SubCategoryName s);
                    Int (SubCategories.CategoryID s)]) <$> t |}.

Definition products_csv (t : list Products.row) : CsvFile :=
  {| header := ["ProductID"; "ProductName"; "SubCategoryID"];
     body := (λ p, [Text (Products.ProductID p); Text (Products.ProductName p);
                    Int (Products.SubCategoryID p)]) <$> t |}.

Definition orders_csv (t : list Orders.row) : CsvFile :=
  {| header := ["OrderID"; "OrderDate"; "ShipDate"; "ShipMode"; "CustomerID"; "PostalCode"];
     body := (λ o, [Text (Orders.OrderID o); Text (Orders.OrderDate o);
                    Text (Orders.ShipDate o); Text (Orders.ShipMode o);
                    Text (Orders.CustomerID o); Int (Orders.PostalCode o)]) <$> t |}.

Definition order_details_csv (t : list OrderDetails.row) : CsvFile :=
  {| header := ["OrderID"; "ProductID"; "Sales"; "Quantity"; "Discount"; "Profit"];
     body := (λ d, [Text (OrderDetails.OrderID d); Text (OrderDetails.ProductID d);
                    Float (OrderDetails.Sales d); Int (OrderDetails.Quantity d);
                    Float (OrderDetails.Discount d); Float (OrderDetails.Profit d)]) <$> t |}.

(** The part of the world the script acts on: directories, files, and the
    lines printed so far. *)
Record World := {
  dirs : gset string;
  files : gmap string CsvFile;
  stdout : list string
}.

Definition print (line : string) (w : World) : World :=
  {| dirs := dirs w; files := files w; stdout := stdout w ++ [line] |}.

Definition path_exists (path : string) (w : World) : bool :=
  bool_decide (path ∈ dirs w ∨ path ∈ dom (files w)).

Definition makedirs (path : string) (w : World) : World :=
  {| dirs := {[path]} ∪ dirs w; files := files w; stdout := stdout w |}.

Definition path_join (dir name : string) : string :=
  String.append dir (String.append "/" name).

Definition to_csv (path : string) (content : CsvFile) (w : World) : World :=
  {| dirs := dirs w; files := <[path := content]> (files w); stdout := stdout w |}.

(** What the [try] block around [pd.read_csv] ends with. *)
Inductive ReadResult :=
  | Loaded (df : DataFrame)
  | FileNotFound
  | ReadFailed (e : string).

Definition output_dir : string := "normalized_superstore_data".

Definition quoted (s : string) : string :=
  String.append "'" (String.append s "'").

(** The whole run; [read] is the outcome of reading [input_csv_path]. *)
Definition normalize_superstore_data
    (input_csv_path : string) (read : ReadResult) (w : World) : World :=
  match read with
  | FileNotFound =>
      print (String.append "Error: The file "
               (String.append (quoted input_csv_path) " was not found.")) w
  | ReadFailed e =>
      print (String.append "An error occurred while reading the CSV: " e) w
  | Loaded df =>
      let w := print (String.append "Successfully loaded "
                        (String.append (quoted input_csv_path) ".")) w in
      let w := if path_exists output_dir w then w
               else print (String.append "Created output directory: " (quoted output_dir))
                          (makedirs output_dir w) in
      let w := to_csv (path_join output_dir "customers.csv")
                      (customers_csv (df_customers df)) w in
      let w := print "Created customers.csv" w in
      let w := to_csv (path_join output_dir "locations.csv")
                      (locations_csv (df_locations df)) w in
      let w := print "Created locations.csv" w in
      let df_categories := df_categories df in
      let w := to_csv (path_join output_dir "categories.csv")
                      (categories_csv df_categories) w in
      let w := print "Created categories.csv" w in
      let df_sub_categories := sub_categories_step df df_categories in
      let w := to_csv (path_join output_dir "sub_categories.csv")
                      (sub_categories_csv df_sub_categories) w in
      let w := print "Created sub_categories.csv" w in
      let w := to_csv (path_join output_dir "products.csv")
                      (products_csv (products_step df df_sub_categories)) w in
      let w := print "Created products.csv" w in
      let w := to_csv (path_join output_dir "orders.csv")
                      (orders_csv (df_orders df)) w in
      let w := print "Created orders.csv" w in
      let w := to_csv (path_join output_dir "order_details.csv")
                      (order_details_csv (df_order_details df)) w in
      let w := print "Created order_details.csv" w in
      print (String.append "Normalization complete. All files are saved in the "
               (String.append (quoted output_dir) " directory.")) w
  end.

(** The seven paths written by a run. *)
Definition output_paths : list string :=
  path_join output_dir <$>
    ["customers.csv"; "locations.csv"; "categories.csv"; "sub_categories.csv";
     "products.csv"; "orders.csv"; "order_details.csv"].

(** The files written by a run that loaded [df], on top of [fs]. *)
Definition written (df : DataFrame) (fs : gmap string CsvFile) : gmap string CsvFile :=
  <[path_join output_dir "order_details.csv" := order_details_csv (df_order_details df)]>
  (<[path_join output_dir "orders.csv" := orders_csv (df_orders df)]>
  (<[path_join output_dir "products.csv" := products_csv (df_products df)]>
  (<[path_join output_dir "sub_categories.csv" := sub_categories_csv (df_sub_categories df)]>
  (<[path_join output_dir "categories.csv" := categories_csv (df_categories df)]>
  (<[path_join output_dir "locations.csv" := locations_csv (df_locations df)]>
  (<[path_join output_dir "customers.csv" := customers_csv (df_customers df)]> fs)))))).

(** ** Vocabulary of the specification *)

(** The number of distinct values in a column. *)
Definition ndistinct {K} `{Countable K} (values : list K) : nat :=
  size (list_to_set values : gset K).

(** The 1-based rank of first appearance of [k] in [values]: one more than
    the number of distinct values occurring before the first occurrence of
    [k]; undefined when [k] does not occur. *)
Definition rank_of_first_appearance {K} `{Countable K}
    (k : K) (values : list K) : option Z :=
  (λ hit : nat * K, Z.of_nat (ndistinct (take hit.1 values)) + 1)
    <$> list_find (λ v, v = k) values.

(** The CategoryID that the rank rule gives to a category name (0 when the
    name does not occur in the input). *)
Definition category_id (df : DataFrame) (name : string) : Z :=
  default 0 (rank_of_first_appearance name (Raw.Category <$> df)).

(** ** Sample inputs *)

(** A line item with the given category, sub-category, product, order and
    measures; the remaining columns are fixed. *)
Definition line_item (category sub_category product_id order_id : string)
    (sales : Q) (quantity : Z) (discount profit : Q) : Raw.row :=
  {| Raw.Customer_ID := "CG-12520"; Raw.Customer_Name := "Claire Gute";
     Raw.Segment := "Consumer";
     Raw.Postal_Code := 42420; Raw.City := "Henderson";
     Raw.State := "Kentucky"; Raw.Region := "South";
     Raw.Category := category; Raw.Sub_Category := sub_category;
     Raw.Product_ID := product_id;
     Raw.Product_Name := String.append "Product " product_id;
     Raw.Order_ID := order_id; Raw.Order_Date := "11/8/2016";
     Raw.Ship_Date := "11/11/2016"; Raw.Ship_Mode := "Second Class";
     Raw.Sales := sales; Raw.Quantity := int64_of_Z quantity;
     Raw.Discount := discount; Raw.Profit := profit |}.

(** The same line item booked under another customer name and city. *)
Definition renamed (name city : string) (r : Raw.row) : Raw.row :=
  {| Raw.Customer_ID := Raw.Customer_ID r; Raw.Customer_Name := name;
     Raw.Segment := Raw.Segment r;
     Raw.Postal_Code := Raw.Postal_Code r; Raw.City := city;
     Raw.State := Raw.State r; Raw.Region := Raw.Region r;
     Raw.Category := Raw.Category r; Raw.Sub_Category := Raw.Sub_Category r;
     Raw.Product_ID := Raw.Product_ID r; Raw.Product_Name := Raw.Product_Name r;
     Raw.Order_ID := Raw.Order_ID r; Raw.Order_Date := Raw.Order_Date r;
     Raw.Ship_Date := Raw.Ship_Date r; Raw.Ship_Mode := Raw.Ship_Mode r;
     Raw.Sales := Raw.Sales r; Raw.Quantity := Raw.Quantity r;
     Raw.Discount := Raw.Discount r; Raw.Profit := Raw.Profit r |}.

(** One customer, postal code and order, with conflicting attributes in the
    second row. *)
Definition conflicting_input : DataFrame :=
  [ line_item "Furniture" "Chairs" "P1" "O1" 10 1 0 2;
    renamed "C. Gute" "Hendersonville"
      (line_item "Furniture" "Tables" "P2" "O1" 20 2 0 4) ]%Q.

(** The three-row input of the surrogate-key scenario. *)
Definition hierarchy_input : DataFrame :=
  [ line_item "Furniture" "Chairs" "P1" "O1" 10 1 0 2;
    line_item "Office Supplies" "Paper" "P2" "O1" 20 2 0 4;
    line_item "Furniture" "Tables" "P3" "O2" 30 3 0 6 ]%Q.


(** Line items whose (order, product) pairs appear in descending order. *)
Definition descending_input : DataFrame :=
  [ line_item "Furniture" "Chairs" "P1" "O2" 10 1 0 2;
    line_item "Furniture" "Chairs" "P2" "O1" 20 2 0 4;
    line_item "Furniture" "Chairs" "P1" "O1" 30 3 0 6 ]%Q.

(** A sub-category name filed under two categories. *)
Definition ambiguous_input : DataFrame :=
  [ line_item "Furniture" "Accessories" "P1" "O1" 10 1 0 2;
    line_item "Technology" "Accessories" "P2" "O1" 20 2 0 4 ]%Q.


(** No sub-category name of the input is filed under two categories. *)
Definition unambiguous (df : DataFrame) : Prop :=
  ∀ r1 r2, r1 ∈ df → r2 ∈ df →
    Raw.Sub_Category r1 = Raw.Sub_Category r2 → Raw.Category r1 = Raw.Category r2.

(** The SubCategoryID that the rank rule gives to a (CategoryName,
    SubCategoryName) pair (0 when the pair does not occur in the input). *)
Definition sub_category_id (df : DataFrame) (pair : string * string) : Z :=
  default 0 (rank_of_first_appearance pair (category_pair <$> df)).

(** A world with nothing on disk and nothing printed. *)
Definition empty_world : World := {| dirs := ∅; files := ∅; stdout := [] |}.

(** ** The customer selection of the dashboard (main.py) *)

(** A row of [customer_data], the result of the customer query. *)
Module CustomerData.
Record row := {
  CustomerID : string; CustomerName : string; Segment : string;
  TotalSales : Q; OrderCount : Z
}.
End CustomerData.







(** * Properties *)

(** ** Deduplication *)

Section dedup_facts.
Context {A K : Type} `{Countable K}.
Implicit Types (key : A → K) (seen : gset K) (l : list A).

Lemma dedup_from_elem_key key seen l r :
  r ∈ dedup_from key seen l → r ∈ l ∧ key r ∉ seen.
Proof.
  revert seen. induction l as [|x l IH]; intros seen; simpl.
  - intros Hin. by apply elem_of_nil in Hin.
  - destruct (decide (key x ∈ seen)) as [Hx|Hx].
    + intros [Hl Hs]%IH. split; [by right | done].
    + intros [->|[Hl Hs]%IH]%elem_of_cons.
      * split; [by left | done].
      * split; [by right | set_solver].
Qed.

Lemma dedup_from_keys_elem key seen l k :
  k ∈ key <$> dedup_from key seen l ↔ k ∈ key <$> l ∧ k ∉ seen.
Proof.
  revert seen. induction l as [|x l IH]; intros seen; simpl.
  - rewrite elem_of_nil. naive_solver.
  - destruct (decide (key x ∈ seen)) as [Hx|Hx].
    + rewrite IH, elem_of_cons. naive_solver.
    + rewrite fmap_cons, !elem_of_cons, IH.
      destruct (decide (k = key x)) as [->|Hne]; [naive_solver | set_solver].
Qed.

Lemma dedup_from_NoDup key seen l : NoDup (key <$> dedup_from key seen l).
Proof.
  revert seen. induction l as [|x l IH]; intros seen; simpl.
  - constructor.
  - destruct (decide (key x ∈ seen)); [apply IH |].
    rewrite fmap_cons. constructor; [| apply IH].
    rewrite dedup_from_keys_elem. set_solver.
Qed.

(** The rows kept for key [k]: the first row of [l] with that key, unless
    the key had been seen before. *)
Lemma dedup_from_filter key seen l k :
  filter (λ x, key x = k) (dedup_from key seen l)
  = if decide (k ∈ seen) then []
    else option_list (snd <$> list_find (λ x, key x = k) l).
Proof.
  revert seen. induction l as [|x l IH]; intros seen; simpl.
  - by destruct (decide (k ∈ seen)).
  - destruct (decide (key x ∈ seen)) as [Hx|Hx].
    + rewrite IH. destruct (decide (k ∈ seen)) as [Hk|Hk]; [done |].
      destruct (decide (key x = k)) as [<-|Hne]; [done |].
      by destruct (list_find _ l) as [[??]|].
    + rewrite filter_cons, IH.
      destruct (decide (key x = k)) as [<-|Hne].
      * rewrite decide_True by set_solver. by rewrite decide_False by done.
      * destruct (decide (k ∈ seen)) as [Hk|Hk].
        -- by rewrite decide_True by set_solver.
        -- rewrite decide_False by set_solver.
           by destruct (list_find _ l) as [[??]|].
Qed.

Lemma drop_duplicates_NoDup key l : NoDup (key <$> drop_duplicates key l).
Proof. apply dedup_from_NoDup. Qed.

Lemma drop_duplicates_keys_elem key l k :
  k ∈ key <$> drop_duplicates key l ↔ k ∈ key <$> l.
Proof. unfold drop_duplicates. rewrite dedup_from_keys_elem. set_solver. Qed.

Lemma drop_duplicates_filter key l k :
  filter (λ x, key x = k) (drop_duplicates key l)
  = option_list (snd <$> list_find (λ x, key x = k) l).
Proof.
  unfold drop_duplicates. rewrite dedup_from_filter.
  by rewrite decide_False by set_solver.
Qed.

(** Deduplication after a projection [f] of the rows. *)
Lemma drop_duplicates_fmap_filter {B} (f : B → A) key (l : list B) k :
  filter (λ x, key x = k) (drop_duplicates key (f <$> l))
  = option_list ((f ∘ snd) <$> list_find (λ x, key (f x) = k) l).
Proof.
  rewrite drop_duplicates_filter, list_find_fmap.
  unfold compose. by destruct (list_find _ l) as [[??]|].
Qed.
End dedup_facts.

(** ** Natural-key tables *)

(** C1. Customers (by CustomerID), locations (by PostalCode) and orders (by
    OrderID) hold, for every key value [k], exactly one row when [k] occurs
    in the input and none otherwise; the attributes of that row are those
    of the first input row whose key is [k]: customer name and segment;
    city, state and region; order date, ship date, ship mode, customer and
    postal code. On [conflicting_input], where the second row repeats the
    keys of the first with another customer name and city, the tables keep
    the name and the city of the first row. *)
Theorem natural_key_tables_first_wins (df : DataFrame) :
  (∀ k, filter (λ c, Customers.CustomerID c = k) (df_customers df)
        = option_list
            ((λ hit : nat * Raw.row,
                {| Customers.CustomerID := k;
                   Customers.CustomerName := Raw.Customer_Name hit.2;
                   Customers.Segment := Raw.Segment hit.2 |})
               <$> list_find (λ r, Raw.Customer_ID r = k) df))
  ∧ (∀ k, filter (λ l, Locations.PostalCode l = k) (df_locations df)
          = option_list
              ((λ hit : nat * Raw.row,
                  {| Locations.PostalCode := k;
                     Locations.City := Raw.City hit.2;
                     Locations.State := Raw.State hit.2;
                     Locations.Region := Raw.Region hit.2 |})
                 <$> list_find (λ r, Raw.Postal_Code r = k) df))
  ∧ (∀ k, filter (λ o, Orders.OrderID o = k) (df_orders df)
          = option_list
              ((λ hit : nat * Raw.row,
                  {| Orders.OrderID := k;
                     Orders.OrderDate := Raw.Order_Date hit.2;
                     Orders.ShipDate := Raw.Ship_Date hit.2;
                     Orders.ShipMode := Raw.Ship_Mode hit.2;
                     Orders.CustomerID := Raw.Customer_ID hit.2;
                     Orders.PostalCode := Raw.Postal_Code hit.2 |})
                 <$> list_find (λ r, Raw.Order_ID r = k) df))
  ∧ df_customers conflicting_input
    = [ {| Customers.CustomerID := "CG-12520"; Customers.CustomerName := "Claire Gute";
           Customers.Segment := "Consumer" |} ]
  ∧ df_locations conflicting_input
    = [ {| Locations.PostalCode := 42420; Locations.City := "Henderson";
           Locations.State := "Kentucky"; Locations.Region := "South" |} ]
  ∧ df_orders conflicting_input
    = [ {| Orders.OrderID := "O1"; Orders.OrderDate := "11/8/2016";
           Orders.ShipDate := "11/11/2016"; Orders.ShipMode := "Second Class";
           Orders.CustomerID := "CG-12520"; Orders.PostalCode := 42420 |} ].
Proof.
  split_and!; [intros k.. | by vm_compute | by vm_compute | by vm_compute].
  - unfold df_customers. rewrite (drop_duplicates_fmap_filter customer_columns Customers.CustomerID).
    destruct (list_find _ df) as [[i r]|] eqn:Hfind; [| done].
    apply list_find_Some in Hfind as (_ & Hk & _). simpl in Hk. by subst k.
  - unfold df_locations. rewrite (drop_duplicates_fmap_filter location_columns Locations.PostalCode).
    destruct (list_find _ df) as [[i r]|] eqn:Hfind; [| done].
    apply list_find_Some in Hfind as (_ & Hk & _). simpl in Hk. by subst k.
  - unfold df_orders. rewrite (drop_duplicates_fmap_filter order_columns Orders.OrderID).
    destruct (list_find _ df) as [[i r]|] eqn:Hfind; [| done].
    apply list_find_Some in Hfind as (_ & Hk & _). simpl in Hk. by subst k.
Qed.

(** ** Order of first appearance *)

Section rank_facts.
Context {A K : Type} `{Countable K}.
Implicit Types (key : A → K) (seen : gset K) (l : list A).

Lemma dedup_from_app key seen l1 l2 :
  dedup_from key seen (l1 ++ l2)
  = dedup_from key seen l1
      ++ dedup_from key (list_to_set (key <$> l1) ∪ seen) l2.
Proof.
  revert seen. induction l1 as [|x l1 IH]; intros seen; simpl.
  - by rewrite (left_id_L ∅ (∪)).
  - destruct (decide (key x ∈ seen)) as [Hx|Hx].
    + rewrite IH. do 2 f_equal. set_solver.
    + rewrite IH. simpl. do 3 f_equal. set_solver.
Qed.

Lemma dedup_from_length key seen l :
  length (dedup_from key seen l) = size (list_to_set (key <$> l) ∖ seen).
Proof.
  revert seen. induction l as [|x l IH]; intros seen; simpl.
  - replace ((∅ : gset K) ∖ seen) with (∅ : gset K) by set_solver. by rewrite size_empty.
  - destruct (decide (key x ∈ seen)) as [Hx|Hx].
    + rewrite IH. f_equal. set_solver.
    + simpl. rewrite IH. change (list_fmap A K key l) with (key <$> l).
      assert ((({[key x]} : gset K) ∪ list_to_set (key <$> l)) ∖ seen
              = {[key x]} ∪ list_to_set (key <$> l) ∖ ({[key x]} ∪ seen)) as ->.
      { apply set_eq. intros k. destruct (decide (k = key x)); set_solver. }
      rewrite (size_union {[key x]}) by set_solver. by rewrite size_singleton.
Qed.

Lemma dedup_from_first key seen pre r post :
  key r ∉ seen → key r ∉ key <$> pre →
  dedup_from key seen (pre ++ r :: post) !! length (dedup_from key seen pre) = Some r.
Proof.
  intros Hseen Hpre. rewrite dedup_from_app.
  rewrite lookup_app_r by lia. rewrite Nat.sub_diag. simpl.
  rewrite decide_False; [done |].
  rewrite elem_of_union, elem_of_list_to_set. tauto.
Qed.
End rank_facts.

Section unique_facts.
Context {K : Type} `{Countable K}.
Implicit Types (l : list K) (k : K).

Lemma unique_NoDup l : NoDup (unique l).
Proof.
  unfold unique. rewrite <-(list_fmap_id (drop_duplicates id l)).
  apply drop_duplicates_NoDup.
Qed.

Lemma unique_elem l k : k ∈ unique l ↔ k ∈ l.
Proof.
  unfold unique. rewrite <-(list_fmap_id (drop_duplicates id l)).
  by rewrite drop_duplicates_keys_elem, list_fmap_id.
Qed.

Lemma unique_length l : length (unique l) = ndistinct l.
Proof.
  unfold unique, drop_duplicates, ndistinct.
  by rewrite dedup_from_length, list_fmap_id, difference_empty_L.
Qed.

Lemma unique_first_split pre k post :
  k ∉ pre → unique (pre ++ k :: post) !! ndistinct pre = Some k.
Proof.
  intros Hpre. rewrite <-unique_length. apply (dedup_from_first id).
  - set_solver.
  - by rewrite list_fmap_id.
Qed.

Lemma unique_first l i k k' :
  list_find (λ v, v = k) l = Some (i, k') →
  unique l !! ndistinct (take i l) = Some k.
Proof.
  intros (Hi & -> & Hbefore)%list_find_Some.
  assert (k ∉ take i l) as Hpre.
  { intros (j & Hj)%list_elem_of_lookup.
    apply lookup_take_Some in Hj as [Hj Hlt]. by eapply Hbefore. }
  pose proof (unique_first_split _ _ (drop (S i) l) Hpre) as Hgoal.
  by rewrite take_drop_middle in Hgoal.
Qed.

(** Position [n] of [unique l] holds the value of rank [n + 1]. *)
Lemma unique_lookup_rank l n k :
  unique l !! n = Some k
  ↔ rank_of_first_appearance k l = Some (Z.of_nat n + 1).
Proof.
  unfold rank_of_first_appearance. split.
  - intros Hn.
    assert (k ∈ l) as Hk by (eapply unique_elem, list_elem_of_lookup_2, Hn).
    destruct (list_find_elem_of (λ v, v = k) l k Hk eq_refl) as [[i k'] Hfind].
    rewrite Hfind. simpl. do 2 f_equal.
    pose proof (unique_first _ _ _ _ Hfind) as Hrank.
    f_equal. symmetry. eapply NoDup_lookup; [apply unique_NoDup | done..].
  - destruct (list_find _ l) as [[i k']|] eqn:Hfind; [| done].
    simpl. intros [= Heq].
    replace n with (ndistinct (take i l)) by lia.
    by eapply unique_first.
Qed.
End unique_facts.

(** ** Joins *)

Section merge_facts.
Context {A B C K : Type} `{EqDecision K}.
Context (on_left : A → K) (on_right : B → K) (join : A → B → C).

(** When every left row has exactly one partner, the join is a row-wise
    lookup and keeps the left frame's shape. *)
Lemma merge_functional (pick : A → B) left right :
  (∀ l, l ∈ left → filter (λ r, on_right r = on_left l) right = [pick l]) →
  merge on_left on_right join left right = (λ l, join l (pick l)) <$> left.
Proof.
  unfold merge. induction left as [|x left IH]; intros Hpick; [done |].
  rewrite bind_cons, fmap_cons, Hpick by left.
  rewrite IH; [done |]. intros l Hl. apply Hpick. by right.
Qed.

(** Every joined row comes from a left row and a right row of equal key. *)
Lemma merge_elem left right c :
  c ∈ merge on_left on_right join left right
  ↔ ∃ l r, l ∈ left ∧ r ∈ right ∧ on_right r = on_left l ∧ c = join l r.
Proof.
  unfold merge. rewrite list_elem_of_bind. split.
  - intros (l & Hc & Hl). apply list_elem_of_fmap in Hc as (r & -> & Hr).
    apply list_elem_of_filter in Hr as [Hkey Hr]. eauto 10.
  - intros (l & r & Hl & Hr & Hkey & ->). exists l. split; [| done].
    apply list_elem_of_fmap. exists r. split; [done |].
    by apply list_elem_of_filter.
Qed.
End merge_facts.

Lemma filter_key_absent {A K} `{EqDecision K} (f : A → K) (l : list A) k :
  k ∉ f <$> l → filter (λ y, f y = k) l = [].
Proof.
  induction l as [|y l IH]; [done |].
  rewrite fmap_cons, not_elem_of_cons. intros [Hne Hk].
  rewrite filter_cons_False by done. by apply IH.
Qed.

Lemma filter_key_NoDup {A K} `{EqDecision K} (f : A → K) (l : list A) x :
  NoDup (f <$> l) → x ∈ l → filter (λ y, f y = f x) l = [x].
Proof.
  induction l as [|y l IH]; intros Hnd Hx; [by apply elem_of_nil in Hx |].
  rewrite fmap_cons in Hnd. apply NoDup_cons in Hnd as [Hy Hnd].
  apply elem_of_cons in Hx as [<-|Hx].
  - rewrite filter_cons_True by done. f_equal. by apply filter_key_absent.
  - rewrite filter_cons_False; [by apply IH |].
    intros Heq. apply Hy. rewrite Heq. by apply list_elem_of_fmap_2.
Qed.

(** ** Surrogate keys *)

Lemma rank_of_first_appearance_is_Some {K} `{Countable K} (k : K) (l : list K) :
  k ∈ l → ∃ n : nat, rank_of_first_appearance k l = Some (Z.of_nat n + 1).
Proof.
  intros Hk. unfold rank_of_first_appearance.
  destruct (list_find_elem_of (λ v, v = k) l k Hk eq_refl) as [[i k'] ->].
  simpl. eauto.
Qed.

Lemma surrogate_ids {A} (l : list A) :
  imap (λ index _, Z.of_nat index + 1) l = Z.of_nat <$> seq 1 (length l).
Proof.
  rewrite (imap_seq_0 l (λ index, Z.of_nat index + 1)).
  rewrite <-fmap_S_seq, <-list_fmap_compose.
  apply list_fmap_ext. intros _ n _. simpl. lia.
Qed.

Lemma df_categories_names df :
  Categories.CategoryName <$> df_categories df = unique (Raw.Category <$> df).
Proof.
  unfold df_categories. rewrite fmap_imap.
  rewrite (imap_ext _ (const id)) by done. by rewrite imap_const, list_fmap_id.
Qed.

Lemma df_categories_ids df :
  Categories.CategoryID <$> df_categories df
  = Z.of_nat <$> seq 1 (ndistinct (Raw.Category <$> df)).
Proof.
  unfold df_categories. rewrite fmap_imap.
  rewrite (imap_ext _ (λ index _, Z.of_nat index + 1)) by done.
  by rewrite surrogate_ids, unique_length.
Qed.

Lemma df_categories_elem df c :
  c ∈ df_categories df
  ↔ rank_of_first_appearance (Categories.CategoryName c) (Raw.Category <$> df)
    = Some (Categories.CategoryID c).
Proof.
  unfold df_categories. rewrite elem_of_lookup_imap. split.
  - intros (n & name & -> & Hn). simpl. by apply unique_lookup_rank.
  - intros Hrank. destruct c as [id name]. simpl in Hrank.
    assert (name ∈ Raw.Category <$> df) as Hname.
    { unfold rank_of_first_appearance in Hrank.
      destruct (list_find _ _) as [[i k']|] eqn:Hfind; [| done].
      apply list_find_Some in Hfind as (Hi & -> & _).
      by eapply list_elem_of_lookup_2. }
    destruct (rank_of_first_appearance_is_Some _ _ Hname) as [n Hn].
    exists n, name. split; [congruence | by apply unique_lookup_rank].
Qed.

(** The categories row that a category name of the input resolves to. *)
Lemma df_categories_resolve df name :
  name ∈ Raw.Category <$> df →
  filter (λ c, Categories.CategoryName c = name) (df_categories df)
  = [ {| Categories.CategoryID := category_id df name;
         Categories.CategoryName := name |} ].
Proof.
  intros Hname.
  set (c := {| Categories.CategoryID := category_id df name;
               Categories.CategoryName := name |}).
  apply (filter_key_NoDup Categories.CategoryName (df_categories df) c).
  - rewrite df_categories_names. apply unique_NoDup.
  - apply df_categories_elem. simpl. unfold category_id.
    by destruct (rank_of_first_appearance_is_Some _ _ Hname) as [n ->].
Qed.

(** The join of line 64 never drops or multiplies a pair: the sub-categories
    table is the list of distinct pairs, numbered in order. *)
Lemma df_sub_categories_eq df :
  df_sub_categories df
  = imap (λ index p, {| SubCategories.SubCategoryID := Z.of_nat index + 1;
                        SubCategories.SubCategoryName := p.2;
                        SubCategories.CategoryID := category_id df p.1 |})
         (unique (category_pair <$> df)).
Proof.
  unfold df_sub_categories, sub_categories_step.
  rewrite (merge_functional _ _ _
             (λ p, {| Categories.CategoryID := category_id df p.1;
                      Categories.CategoryName := p.1 |})).
  - by rewrite imap_fmap.
  - intros p Hp. apply df_categories_resolve.
    apply (unique_elem (category_pair <$> df)) in Hp.
    apply list_elem_of_fmap in Hp as (r & -> & Hr).
    by apply (list_elem_of_fmap_2 Raw.Category).
Qed.

Lemma rank_of_first_appearance_lookup {K} `{Countable K} (k : K) (l : list K) z :
  rank_of_first_appearance k l = Some z →
  ∃ n : nat, z = Z.of_nat n + 1 ∧ unique l !! n = Some k.
Proof.
  intros Hrank.
  assert (∃ n : nat, z = Z.of_nat n + 1) as [n ->].
  { unfold rank_of_first_appearance in Hrank.
    destruct (list_find _ l) as [[i k']|]; simplify_eq/=. eauto. }
  exists n. split; [done | by apply unique_lookup_rank].
Qed.

Lemma df_sub_categories_ids df :
  SubCategories.SubCategoryID <$> df_sub_categories df
  = Z.of_nat <$> seq 1 (ndistinct (category_pair <$> df)).
Proof.
  rewrite df_sub_categories_eq, fmap_imap.
  rewrite (imap_ext _ (λ index _, Z.of_nat index + 1)) by done.
  by rewrite surrogate_ids, unique_length.
Qed.

Lemma df_sub_categories_elem df s :
  s ∈ df_sub_categories df
  ↔ ∃ category,
      rank_of_first_appearance (category, SubCategories.SubCategoryName s)
        (category_pair <$> df) = Some (SubCategories.SubCategoryID s)
      ∧ rank_of_first_appearance category (Raw.Category <$> df)
        = Some (SubCategories.CategoryID s).
Proof.
  rewrite df_sub_categories_eq, elem_of_lookup_imap. split.
  - intros (n & [category name] & -> & Hn). simpl. exists category. split.
    + by apply unique_lookup_rank.
    + assert (category ∈ Raw.Category <$> df) as Hc.
      { apply list_elem_of_lookup_2 in Hn. rewrite unique_elem in Hn.
        apply list_elem_of_fmap in Hn as (r & [= -> ->] & Hr).
        by apply (list_elem_of_fmap_2 Raw.Category). }
      unfold category_id.
      by destruct (rank_of_first_appearance_is_Some _ _ Hc) as [m ->].
  - intros (category & Hpair & Hcat).
    apply rank_of_first_appearance_lookup in Hpair as (n & Hid & Hn).
    exists n, (category, SubCategories.SubCategoryName s). split; [| done].
    destruct s as [id name cid]. simpl in *. unfold category_id.
    rewrite Hcat. simpl. by subst.
Qed.

(** C2. CategoryID and SubCategoryID run through 1..N, N the number of
    distinct category names (resp. distinct (CategoryName, SubCategoryName)
    pairs) of the input; a row is in the table exactly when its ID is the
    1-based rank of first appearance of its name (resp. pair), a
    sub-category row carrying the ID of its pair's category. On the input
    (Furniture, Chairs), (Office Supplies, Paper), (Furniture, Tables) this
    gives Furniture 1, Office Supplies 2 and Chairs 1, Paper 2, Tables 3. *)
Theorem surrogate_keys_dense_first_appearance (df : DataFrame) :
  Categories.CategoryID <$> df_categories df
    = Z.of_nat <$> seq 1 (ndistinct (Raw.Category <$> df))
  ∧ (∀ c, c ∈ df_categories df
          ↔ rank_of_first_appearance (Categories.CategoryName c)
              (Raw.Category <$> df) = Some (Categories.CategoryID c))
  ∧ SubCategories.SubCategoryID <$> df_sub_categories df
    = Z.of_nat <$> seq 1 (ndistinct (category_pair <$> df))
  ∧ (∀ s, s ∈ df_sub_categories df
          ↔ ∃ category,
              rank_of_first_appearance (category, SubCategories.SubCategoryName s)
                (category_pair <$> df) = Some (SubCategories.SubCategoryID s)
              ∧ rank_of_first_appearance category (Raw.Category <$> df)
                = Some (SubCategories.CategoryID s))
  ∧ df_categories hierarchy_input
    = [ {| Categories.CategoryID := 1; Categories.CategoryName := "Furniture" |};
        {| Categories.CategoryID := 2; Categories.CategoryName := "Office Supplies" |} ]
  ∧ df_sub_categories hierarchy_input
    = [ {| SubCategories.SubCategoryID := 1; SubCategories.SubCategoryName := "Chairs";
           SubCategories.CategoryID := 1 |};
        {| SubCategories.SubCategoryID := 2; SubCategories.SubCategoryName := "Paper";
           SubCategories.CategoryID := 2 |};
        {| SubCategories.SubCategoryID := 3; SubCategories.SubCategoryName := "Tables";
           SubCategories.CategoryID := 1 |} ].
Proof.
  split_and!.
  - apply df_categories_ids.
  - apply df_categories_elem.
  - apply df_sub_categories_ids.
  - apply df_sub_categories_elem.
  - by vm_compute.
  - by vm_compute.
Qed.

(** ** Grouping *)

Global Instance tuple_le_refl : Reflexive tuple_le.
Proof. intros a. unfold tuple_le. by rewrite decide_True by done. Qed.

Global Instance tuple_le_trans : Transitive tuple_le.
Proof.
  intros [a1 a2] [b1 b2] [c1 c2]. unfold tuple_le. simpl.
  repeat case_decide; subst; try done; intros Hle1 Hle2; try (by etrans).
  exfalso.
  match goal with Hne : _ ≠ _ |- _ => by apply Hne, (anti_symm String.le) end.
Qed.

Global Instance tuple_le_total : Total tuple_le.
Proof.
  intros [a1 a2] [b1 b2]. unfold tuple_le. simpl.
  destruct (decide (a1 = b1)) as [->|Hab].
  - rewrite decide_True by done. apply (total String.le).
  - rewrite decide_False by done. apply (total String.le).
Qed.

Global Instance tuple_le_anti_symm : AntiSymm (=) tuple_le.
Proof.
  intros [a1 a2] [b1 b2]. unfold tuple_le. simpl.
  destruct (decide (a1 = b1)) as [->|Hab].
  - rewrite decide_True by done. intros ??. f_equal. by apply (anti_symm String.le).
  - rewrite decide_False by done. intros ??. destruct Hab.
    by apply (anti_symm String.le).
Qed.

Lemma StronglySorted_strict {A} (R : relation A) (l : list A) :
  StronglySorted R l → NoDup l → StronglySorted (λ a b, R a b ∧ a ≠ b) l.
Proof.
  induction 1 as [|x l Hsorted IH Hx]; intros Hnd; [constructor |].
  apply NoDup_cons in Hnd as [Hnotin Hnd]. constructor; [by apply IH |].
  rewrite Forall_forall in Hx. apply Forall_forall. intros y Hy.
  split; [by apply Hx |]. by intros ->.
Qed.

Section groupby_facts.
Context {A : Type} (by_ : A → string * string).
Implicit Types (df : list A) (k : string * string).

Lemma groupby_keys df :
  fst <$> groupby by_ df = merge_sort tuple_le (unique (by_ <$> df)).
Proof.
  unfold groupby. rewrite <-list_fmap_compose.
  etrans; [by apply (list_fmap_ext _ id) | apply list_fmap_id].
Qed.

Lemma groupby_keys_Permutation df :
  fst <$> groupby by_ df ≡ₚ unique (by_ <$> df).
Proof. rewrite groupby_keys. apply merge_sort_Permutation. Qed.

Lemma groupby_keys_NoDup df : NoDup (fst <$> groupby by_ df).
Proof. rewrite groupby_keys_Permutation. apply unique_NoDup. Qed.

Lemma groupby_keys_elem df k : k ∈ fst <$> groupby by_ df ↔ k ∈ by_ <$> df.
Proof. by rewrite groupby_keys_Permutation, unique_elem. Qed.

Lemma groupby_keys_sorted df : StronglySorted tuple_lt (fst <$> groupby by_ df).
Proof.
  apply StronglySorted_strict; [| apply groupby_keys_NoDup].
  rewrite groupby_keys. apply StronglySorted_merge_sort; apply _.
Qed.

(** A group holds all rows of its key, and only those. *)
Lemma groupby_elem df g :
  g ∈ groupby by_ df
  ↔ g.1 ∈ by_ <$> df ∧ g.2 = filter (λ r, by_ r = g.1) df.
Proof.
  unfold groupby. rewrite list_elem_of_fmap. split.
  - intros (k & -> & Hk). simpl. split; [| done].
    by rewrite merge_sort_Permutation, unique_elem in Hk.
  - intros [Hk Hg]. exists g.1. split.
    + destruct g as [k rows]. simpl in *. by subst.
    + by rewrite merge_sort_Permutation, unique_elem.
Qed.

(** The key order of the groups does not depend on the order of the rows. *)
Lemma groupby_keys_Permutation_invariant df df' :
  df ≡ₚ df' → fst <$> groupby by_ df = fst <$> groupby by_ df'.
Proof.
  intros Hperm. rewrite !groupby_keys.
  apply (Sorted_unique tuple_le); [apply Sorted_merge_sort, _.. |].
  rewrite !merge_sort_Permutation.
  apply NoDup_Permutation; [apply unique_NoDup.. |].
  intros k. rewrite !unique_elem. by rewrite Hperm.
Qed.
End groupby_facts.

(** ** Order details *)

Lemma detail_key_agg (g : (string * string) * list Raw.row) : detail_key (agg g) = g.1.
Proof. by destruct g as [[order product] rows]. Qed.

Lemma df_order_details_keys df :
  detail_key <$> df_order_details df = fst <$> groupby order_key df.
Proof.
  unfold df_order_details. rewrite <-list_fmap_compose.
  apply list_fmap_ext. intros _ g _. apply detail_key_agg.
Qed.

Lemma df_order_details_elem df d :
  d ∈ df_order_details df
  ↔ detail_key d ∈ order_key <$> df
    ∧ d = agg (detail_key d, filter (λ r, order_key r = detail_key d) df).
Proof.
  unfold df_order_details. rewrite list_elem_of_fmap. split.
  - intros (g & -> & [Hk Hg]%groupby_elem). rewrite detail_key_agg.
    split; [done |]. rewrite <-Hg. by destruct g.
  - intros [Hk Hd]. eexists. split; [exact Hd |].
    by apply groupby_elem.
Qed.

Lemma wrap64_add_l (a b : Z) : wrap64 (wrap64 a + b) = wrap64 (a + b).
Proof.
  unfold wrap64. f_equal.
  replace ((a + 2 ^ 63) mod 2 ^ 64 - 2 ^ 63 + b + 2 ^ 63)
    with ((a + 2 ^ 63) mod 2 ^ 64 + b) by ring.
  rewrite Z.add_mod_idemp_l by done. f_equal. ring.
Qed.

Lemma wrap64_id (z : Z) : in_int64 z = true → wrap64 z = z.
Proof.
  unfold in_int64, wrap64. intros [Hlo Hhi]%andb_true_iff.
  apply Z.leb_le in Hlo. apply Z.ltb_lt in Hhi.
  change (2 ^ 64) with (2 ^ 63 + 2 ^ 63).
  generalize dependent (2 ^ 63). intros half Hlo Hhi.
  rewrite Z.mod_small by lia. lia.
Qed.

(** Accumulating in a wrapping int64 gives the exact sum reduced to int64. *)
Lemma sum_int64_wrap (xs : list int64) :
  sum_int64 xs = wrap64 (foldr Z.add 0 (int64_to_Z <$> xs)).
Proof.
  unfold sum_int64.
  assert (∀ acc, foldl (λ acc (x : int64), wrap64 (acc + x)) (wrap64 acc) xs
                 = wrap64 (acc + foldr Z.add 0 (int64_to_Z <$> xs))) as Hacc.
  { induction xs as [|x xs IH]; intros acc; cbn [foldl foldr fmap list_fmap].
    - by rewrite Z.add_0_r.
    - rewrite wrap64_add_l, IH. f_equal. ring. }
  apply (Hacc 0).
Qed.





(** ** Row order *)

Lemma dedup_from_keys {A K} `{Countable K} (key : A → K) (seen : gset K) (l : list A) :
  key <$> dedup_from key seen l = dedup_from id seen (key <$> l).
Proof.
  revert seen. induction l as [|x l IH]; intros seen; [done |].
  rewrite fmap_cons. cbn [dedup_from].
  change (id (key x)) with (key x).
  destruct (decide (key x ∈ seen)); [apply IH |].
  rewrite fmap_cons. f_equal. apply IH.
Qed.

(** The key column of a deduplicated projection lists the distinct keys of
    the input in order of first appearance. *)
Lemma drop_duplicates_keys {A B K} `{Countable K} (key : A → K) (f : B → A) (l : list B) :
  key <$> drop_duplicates key (f <$> l) = unique ((λ r, key (f r)) <$> l).
Proof.
  unfold unique, drop_duplicates. by rewrite dedup_from_keys, <-list_fmap_compose.
Qed.

Lemma df_sub_categories_names df :
  SubCategories.SubCategoryName <$> df_sub_categories df
  = snd <$> unique (category_pair <$> df).
Proof.
  rewrite df_sub_categories_eq, fmap_imap.
  rewrite (imap_ext _ (const snd)) by done. by rewrite imap_const.
Qed.

(** ** Foreign keys *)

Lemma sub_categories_step_foreign_key df categories s :
  s ∈ sub_categories_step df categories →
  SubCategories.CategoryID s ∈ Categories.CategoryID <$> categories.
Proof.
  unfold sub_categories_step.
  intros (index & m & -> & Hm)%elem_of_lookup_imap. simpl.
  apply list_elem_of_lookup_2, merge_elem in Hm as (p & c & _ & Hc & _ & ->).
  simpl. by apply list_elem_of_fmap_2.
Qed.

Lemma products_step_foreign_key df sub_categories p :
  p ∈ products_step df sub_categories →
  Products.SubCategoryID p ∈ SubCategories.SubCategoryID <$> sub_categories.
Proof.
  unfold products_step.
  intros (l & r & _ & Hr & _ & ->)%merge_elem. simpl.
  apply list_elem_of_fmap in Hr as (s & -> & Hs). simpl.
  by apply list_elem_of_fmap_2.
Qed.

(** ** The run *)

Lemma normalize_files path df w :
  files (normalize_superstore_data path (Loaded df) w) = written df (files w).
Proof.
  unfold normalize_superstore_data, written.
  by destruct (path_exists output_dir _).
Qed.

Lemma normalize_dirs path df w :
  dirs (normalize_superstore_data path (Loaded df) w)
  = if path_exists output_dir w then dirs w else {[output_dir]} ∪ dirs w.
Proof.
  unfold normalize_superstore_data.
  change (path_exists output_dir (print _ w)) with (path_exists output_dir w).
  by destruct (path_exists output_dir w).
Qed.

Lemma normalize_completes path df w :
  last (stdout (normalize_superstore_data path (Loaded df) w))
  = Some "Normalization complete. All files are saved in the 'normalized_superstore_data' directory.".
Proof.
  unfold normalize_superstore_data.
  destruct (path_exists output_dir _); cbn [stdout print]; by rewrite last_snoc.
Qed.

Lemma written_lookup df fs :
  written df fs !! path_join output_dir "customers.csv"
    = Some (customers_csv (df_customers df))
  ∧ written df fs !! path_join output_dir "locations.csv"
    = Some (locations_csv (df_locations df))
  ∧ written df fs !! path_join output_dir "categories.csv"
    = Some (categories_csv (df_categories df))
  ∧ written df fs !! path_join output_dir "sub_categories.csv"
    = Some (sub_categories_csv (df_sub_categories df))
  ∧ written df fs !! path_join output_dir "products.csv"
    = Some (products_csv (df_products df))
  ∧ written df fs !! path_join output_dir "orders.csv"
    = Some (orders_csv (df_orders df))
  ∧ written df fs !! path_join output_dir "order_details.csv"
    = Some (order_details_csv (df_order_details df)).
Proof.
  unfold written.
  split_and!; repeat (rewrite lookup_insert_ne by (by vm_compute));
    apply lookup_insert_eq.
Qed.

(** After a run that loaded its input, the output directory exists. *)
Lemma path_exists_after_run path df w :
  path_exists output_dir (normalize_superstore_data path (Loaded df) w) = true.
Proof.
  unfold path_exists at 1. apply bool_decide_eq_true.
  rewrite normalize_dirs, normalize_files.
  destruct (path_exists output_dir w) eqn:Hexists; [| left; set_solver].
  unfold path_exists in Hexists.
  apply bool_decide_eq_true in Hexists as [Hdir|Hfile]; [by left | right].
  unfold written. rewrite !dom_insert_L. set_solver.
Qed.

(** Writing the same seven files again changes nothing. *)
Lemma written_idemp df fs : written df (written df fs) = written df fs.
Proof.
  apply map_eq. intros path. unfold written.
  rewrite !lookup_insert. by repeat case_decide.
Qed.

(** C5. Every row of the sub-categories table carries the CategoryID of
    some row of the categories table, and every row of the products table
    the SubCategoryID of some row of the sub-categories table; these are
    the tables that a run writes to sub_categories.csv, categories.csv and
    products.csv. *)
Theorem foreign_keys_resolve (df : DataFrame) (path : string) (w : World) :
  Forall (λ s, SubCategories.CategoryID s ∈ Categories.CategoryID <$> df_categories df)
         (df_sub_categories df)
  ∧ Forall (λ p, Products.SubCategoryID p
                 ∈ SubCategories.SubCategoryID <$> df_sub_categories df)
           (df_products df)
  ∧ files (normalize_superstore_data path (Loaded df) w)
      !! path_join output_dir "categories.csv"
    = Some (categories_csv (df_categories df))
  ∧ files (normalize_superstore_data path (Loaded df) w)
      !! path_join output_dir "sub_categories.csv"
    = Some (sub_categories_csv (df_sub_categories df))
  ∧ files (normalize_superstore_data path (Loaded df) w)
      !! path_join output_dir "products.csv"
    = Some (products_csv (df_products df)).
Proof.
  rewrite normalize_files.
  destruct (written_lookup df (files w)) as (_ & _ & Hc & Hs & Hp & _).
  split_and!; [| | done..].
  - apply Forall_forall. intros s. apply sub_categories_step_foreign_key.
  - apply Forall_forall. intros p. apply products_step_foreign_key.
Qed.

(** ** Lookups in a run *)

(** Every input row finds its sub-category in the sub-categories table. *)
Lemma df_sub_categories_covers df r :
  r ∈ df →
  ∃ s, s ∈ df_sub_categories df
       ∧ SubCategories.SubCategoryName s = Raw.Sub_Category r
       ∧ SubCategories.CategoryID s = category_id df (Raw.Category r).
Proof.
  intros Hr.
  assert (category_pair r ∈ unique (category_pair <$> df)) as Hpair
    by (by apply unique_elem, list_elem_of_fmap_2).
  apply list_elem_of_lookup in Hpair as [n Hn].
  exists {| SubCategories.SubCategoryID := Z.of_nat n + 1;
            SubCategories.SubCategoryName := Raw.Sub_Category r;
            SubCategories.CategoryID := category_id df (Raw.Category r) |}.
  split; [| done].
  rewrite df_sub_categories_eq. apply elem_of_lookup_imap.
  by exists n, (category_pair r).
Qed.

(** Every product of the input is in the products table. *)
Lemma df_products_covers df r :
  r ∈ df → Raw.Product_ID r ∈ Products.ProductID <$> df_products df.
Proof.
  intros Hr. unfold df_products, products_step.
  set (columns := λ r, (Raw.Product_ID r, Raw.Product_Name r, Raw.Sub_Category r)).
  assert (Raw.Product_ID r
          ∈ (λ p : string * string * string, p.1.1)
              <$> drop_duplicates (λ p : string * string * string, p.1.1) (columns <$> df))
    as Hkey.
  { apply drop_duplicates_keys_elem. rewrite <-list_fmap_compose.
    by apply (list_elem_of_fmap_2 (λ r, Raw.Product_ID r)). }
  apply list_elem_of_fmap in Hkey as (l & Hid & Hl).
  pose proof Hl as [Hl' _]%dedup_from_elem_key.
  apply list_elem_of_fmap in Hl' as (r' & -> & Hr').
  destruct (df_sub_categories_covers df r' Hr') as (s & Hs & Hname & _).
  apply list_elem_of_fmap. eexists. split; [| apply merge_elem].
  2:{ exists (columns r'), (SubCategories.SubCategoryID s, SubCategories.SubCategoryName s).
      split_and!; [done | | done | reflexivity].
      by apply (list_elem_of_fmap_2
                  (λ s, (SubCategories.SubCategoryID s, SubCategories.SubCategoryName s))). }
  done.
Qed.

(** ** Uniqueness of natural keys *)

Lemma natural_keys_NoDup df :
  NoDup (Customers.CustomerID <$> df_customers df)
  ∧ NoDup (Locations.PostalCode <$> df_locations df)
  ∧ NoDup (Orders.OrderID <$> df_orders df).
Proof. split_and!; apply drop_duplicates_NoDup. Qed.

(** When no sub-category name is filed under two categories, the join of
    line 77 keeps ProductID unique. *)
Lemma df_products_NoDup df :
  NoDup (SubCategories.SubCategoryName <$> df_sub_categories df) →
  NoDup (Products.ProductID <$> df_products df).
Proof.
  intros Hnames. unfold df_products, products_step.
  set (columns := λ r, (Raw.Product_ID r, Raw.Product_Name r, Raw.Sub_Category r)).
  set (lookup := (λ s, (SubCategories.SubCategoryID s, SubCategories.SubCategoryName s))
                   <$> df_sub_categories df).
  rewrite (merge_functional _ _ _
             (λ l, default (0, "") (head (filter (λ r : Z * string, r.2 = l.2) lookup)))).
  - rewrite <-list_fmap_compose.
    apply (drop_duplicates_NoDup (λ p : string * string * string, p.1.1)).
  - intros l [Hl _]%dedup_from_elem_key.
    apply list_elem_of_fmap in Hl as (r & -> & Hr).
    destruct (df_sub_categories_covers df r Hr) as (s & Hs & Hname & _).
    assert (filter (λ x : Z * string, x.2 = Raw.Sub_Category r) lookup
            = [(SubCategories.SubCategoryID s, SubCategories.SubCategoryName s)])
      as Hone.
    { rewrite <-Hname.
      apply (filter_key_NoDup snd lookup
               (SubCategories.SubCategoryID s, SubCategories.SubCategoryName s)).
      - unfold lookup. by rewrite <-list_fmap_compose.
      - by apply (list_elem_of_fmap_2
                    (λ s, (SubCategories.SubCategoryID s,
                           SubCategories.SubCategoryName s))). }
    simpl. by rewrite Hone.
Qed.

(** C4. On [ambiguous_input], where the sub-category name Accessories
    occurs under both Furniture and Technology, the products table lists
    each ProductID twice, once per sub-category row of that name: the
    ProductID column has repetitions. *)
Theorem product_id_repeated_by_join :
  df_sub_categories ambiguous_input
  = [ {| SubCategories.SubCategoryID := 1; SubCategories.SubCategoryName := "Accessories";
         SubCategories.CategoryID := 1 |};
      {| SubCategories.SubCategoryID := 2; SubCategories.SubCategoryName := "Accessories";
         SubCategories.CategoryID := 2 |} ]
  ∧ df_products ambiguous_input
    = [ {| Products.ProductID := "P1"; Products.ProductName := "Product P1";
           Products.SubCategoryID := 1 |};
        {| Products.ProductID := "P1"; Products.ProductName := "Product P1";
           Products.SubCategoryID := 2 |};
        {| Products.ProductID := "P2"; Products.ProductName := "Product P2";
           Products.SubCategoryID := 1 |};
        {| Products.ProductID := "P2"; Products.ProductName := "Product P2";
           Products.SubCategoryID := 2 |} ]
  ∧ ¬ NoDup (Products.ProductID <$> df_products ambiguous_input).
Proof.
  split_and!; [by vm_compute.. |].
  intros Hnd. vm_compute in Hnd.
  apply NoDup_cons in Hnd as [Hnotin _]. apply Hnotin. left.
Qed.

(** ** Unresolved lookups *)


(** ** Failure to read the input *)

(** C7. When reading the input raises FileNotFoundError or any other
    exception, the run prints one line and returns: the directories and
    files are those from before the run, so none of the seven output paths
    is created or modified. *)
Theorem unreadable_input_writes_nothing (path : string) (w : World) :
  (dirs (normalize_superstore_data path FileNotFound w) = dirs w
   ∧ files (normalize_superstore_data path FileNotFound w) = files w
   ∧ stdout (normalize_superstore_data path FileNotFound w)
     = stdout w ++ [String.append "Error: The file "
                      (String.append (quoted path) " was not found.")])
  ∧ (∀ e, dirs (normalize_superstore_data path (ReadFailed e) w) = dirs w
          ∧ files (normalize_superstore_data path (ReadFailed e) w) = files w
          ∧ stdout (normalize_superstore_data path (ReadFailed e) w)
            = stdout w ++ [String.append "An error occurred while reading the CSV: " e])
  ∧ Forall (λ out, files (normalize_superstore_data path FileNotFound w) !! out
                   = files w !! out) output_paths
  ∧ (∀ e, Forall (λ out, files (normalize_superstore_data path (ReadFailed e) w) !! out
                         = files w !! out) output_paths).
Proof.
  split_and!; [done.. | | | ].
  - intros e. by split_and!.
  - by apply Forall_forall.
  - intros e. by apply Forall_forall.
Qed.

(** ** Re-running *)

(** C8. The seven files a run writes are determined by the loaded input
    alone, whatever was on disk before; and running again on the same input
    leaves directories and files exactly as the first run left them. *)
Theorem rerun_same_output (path : string) (read : ReadResult) (w : World) :
  (∀ df w', Forall (λ out, files (normalize_superstore_data path (Loaded df) w) !! out
                           = files (normalize_superstore_data path (Loaded df) w') !! out)
                   output_paths)
  ∧ files (normalize_superstore_data path read (normalize_superstore_data path read w))
    = files (normalize_superstore_data path read w)
  ∧ dirs (normalize_superstore_data path read (normalize_superstore_data path read w))
    = dirs (normalize_superstore_data path read w).
Proof.
  split_and!.
  - intros df w'. rewrite !normalize_files.
    destruct (written_lookup df (files w)) as (H1 & H2 & H3 & H4 & H5 & H6 & H7).
    destruct (written_lookup df (files w')) as (H1' & H2' & H3' & H4' & H5' & H6' & H7').
    unfold output_paths. cbn [fmap list_fmap].
    repeat (apply Forall_cons; split; [congruence |]). constructor.
  - destruct read as [df| |e]; [| done..].
    rewrite !normalize_files. apply written_idemp.
  - destruct read as [df| |e]; [| done..].
    by rewrite (normalize_dirs path df (normalize_superstore_data _ _ _)),
         path_exists_after_run.
Qed.

(** ** Empty input *)

(** C9. On a CSV with a header and no data rows the run prints its closing
    line, and each of the seven output paths then holds a file with its
    header line and no data line. *)
Theorem empty_input_writes_seven_headers (path : string) (w : World) :
  let w' := normalize_superstore_data path (Loaded []) w in
  last (stdout w')
    = Some "Normalization complete. All files are saved in the 'normalized_superstore_data' directory."
  ∧ files w' !! "normalized_superstore_data/customers.csv"
    = Some {| header := ["CustomerID"; "CustomerName"; "Segment"]; body := [] |}
  ∧ files w' !! "normalized_superstore_data/locations.csv"
    = Some {| header := ["PostalCode"; "City"; "State"; "Region"]; body := [] |}
  ∧ files w' !! "normalized_superstore_data/categories.csv"
    = Some {| header := ["CategoryID"; "CategoryName"]; body := [] |}
  ∧ files w' !! "normalized_superstore_data/sub_categories.csv"
    = Some {| header := ["SubCategoryID"; "SubCategoryName"; "CategoryID"]; body := [] |}
  ∧ files w' !! "normalized_superstore_data/products.csv"
    = Some {| header := ["ProductID"; "ProductName"; "SubCategoryID"]; body := [] |}
  ∧ files w' !! "normalized_superstore_data/orders.csv"
    = Some {| header := ["OrderID"; "OrderDate"; "ShipDate"; "ShipMode";
                         "CustomerID"; "PostalCode"];
              body := [] |}
  ∧ files w' !! "normalized_superstore_data/order_details.csv"
    = Some {| header := ["OrderID"; "ProductID"; "Sales"; "Quantity";
                         "Discount"; "Profit"];
              body := [] |}.
Proof.
  intros w'. subst w'. split; [apply normalize_completes |].
  rewrite normalize_files.
  destruct (written_lookup [] (files w)) as (H1 & H2 & H3 & H4 & H5 & H6 & H7).
  by split_and!.
Qed.

(** ** Row order of the tables *)

Lemma dedup_from_skip {A K} `{Countable K} (key : A → K) (seen : gset K) (pre rest : list A) :
  Forall (λ x, key x ∈ seen) pre →
  dedup_from key seen (pre ++ rest) = dedup_from key seen rest.
Proof.
  induction 1 as [|x pre Hx Hpre IH]; [done |].
  simpl. by rewrite decide_True by done.
Qed.

(** Repeating each value in place does not change the order of first
    appearance. *)
Lemma dedup_from_bind_blocks {A B K} `{Countable K}
    (key : A → K) (block : A → list B) (seen : gset K) (l : list A) :
  Forall (λ x, block x ≠ []) l →
  dedup_from id seen (l ≫= λ x, (λ _, key x) <$> block x)
  = dedup_from id seen (key <$> l).
Proof.
  intros Hblocks. revert seen.
  induction Hblocks as [|x l Hx Hl IH]; intros seen; [done |].
  rewrite bind_cons, fmap_cons.
  destruct (block x) as [|b bs]; [done |].
  rewrite fmap_cons. cbn [app dedup_from]. change (id (key x)) with (key x).
  destruct (decide (key x ∈ seen)) as [Hseen|Hseen].
  - rewrite dedup_from_skip; [apply IH |].
    apply Forall_fmap, Forall_forall. by intros.
  - f_equal. rewrite dedup_from_skip; [apply IH |].
    apply Forall_fmap, Forall_forall. intros ? _. simpl. set_solver.
Qed.

Lemma merge_left_column {A B C K K'} `{EqDecision K}
    (on_left : A → K) (on_right : B → K) (join : A → B → C)
    (f : C → K') (column : A → K') (left : list A) (right : list B) :
  (∀ l r, f (join l r) = column l) →
  f <$> merge on_left on_right join left right
  = left ≫= λ l, (λ _, column l) <$> filter (λ r, on_right r = on_left l) right.
Proof.
  intros Hcolumn. unfold merge. induction left as [|x left IH]; [done |].
  rewrite !bind_cons, fmap_app, IH. f_equal.
  rewrite <-list_fmap_compose. apply list_fmap_ext. intros _ r _. apply Hcolumn.
Qed.

Lemma unique_idemp {K} `{Countable K} (l : list K) : unique (unique l) = unique l.
Proof.
  pose proof (unique_NoDup l) as Hnd. unfold unique at 1, drop_duplicates.
  assert (∀ u (seen : gset K), NoDup u → (∀ k, k ∈ u → k ∉ seen) →
            dedup_from id seen u = u) as Hfix.
  { induction u as [|k u IH]; intros seen Hu Hseen; [done |].
    apply NoDup_cons in Hu as [Hk Hu]. simpl.
    rewrite decide_False by (apply Hseen; left). f_equal. apply IH; [done |].
    intros k' Hk'. unfold id. rewrite not_elem_of_union, not_elem_of_singleton.
    split; [by intros -> | apply Hseen; by right]. }
  apply Hfix; [done | set_solver].
Qed.

(** The ProductIDs of the products table first appear in the order in which
    they first appear in the input. *)
Lemma df_products_order df :
  unique (Products.ProductID <$> df_products df) = unique (Raw.Product_ID <$> df).
Proof.
  unfold df_products, products_step.
  set (columns := λ r, (Raw.Product_ID r, Raw.Product_Name r, Raw.Sub_Category r)).
  rewrite (merge_left_column _ _ _ Products.ProductID
             (λ p : string * string * string, p.1.1)) by done.
  unfold unique at 1, drop_duplicates at 1.
  rewrite (dedup_from_bind_blocks (λ p : string * string * string, p.1.1)).
  - fold (drop_duplicates id
            ((λ p : string * string * string, p.1.1)
               <$> drop_duplicates (λ p : string * string * string, p.1.1)
                     (columns <$> df))).
    rewrite (drop_duplicates_keys (λ p : string * string * string, p.1.1) columns).
    apply unique_idemp.
  - apply Forall_forall. intros l [Hl _]%dedup_from_elem_key.
    apply list_elem_of_fmap in Hl as (r & -> & Hr).
    destruct (df_sub_categories_covers df r Hr) as (s & Hs & Hname & _).
    intros Hnil.
    eapply (filter_nil_not_elem_of _ _
              (SubCategories.SubCategoryID s, SubCategories.SubCategoryName s));
      [exact Hnil | exact Hname |].
    by apply (list_elem_of_fmap_2
                (λ s, (SubCategories.SubCategoryID s, SubCategories.SubCategoryName s))).
Qed.

(** C10. The order-details rows are in strictly ascending order of the
    tuple (OrderID, ProductID), whatever the order of the input rows:
    permuting the input leaves the sequence of keys unchanged. The key
    columns of customers, locations, categories, sub-categories and orders
    instead list the distinct values in order of first appearance, and the
    ProductIDs of the products table first appear in that order. Line
    items arriving as (O2, P1), (O1, P2), (O1, P1) come out as (O1, P1),
    (O1, P2), (O2, P1). *)
Theorem order_details_sorted_by_key (df : DataFrame) :
  StronglySorted tuple_lt (detail_key <$> df_order_details df)
  ∧ (∀ df', df ≡ₚ df' →
       detail_key <$> df_order_details df = detail_key <$> df_order_details df')
  ∧ Customers.CustomerID <$> df_customers df = unique (Raw.Customer_ID <$> df)
  ∧ Locations.PostalCode <$> df_locations df = unique (Raw.Postal_Code <$> df)
  ∧ Categories.CategoryName <$> df_categories df = unique (Raw.Category <$> df)
  ∧ SubCategories.SubCategoryName <$> df_sub_categories df
    = snd <$> unique (category_pair <$> df)
  ∧ unique (Products.ProductID <$> df_products df) = unique (Raw.Product_ID <$> df)
  ∧ Orders.OrderID <$> df_orders df = unique (Raw.Order_ID <$> df)
  ∧ order_key <$> descending_input = [("O2", "P1"); ("O1", "P2"); ("O1", "P1")]
  ∧ detail_key <$> df_order_details descending_input
    = [("O1", "P1"); ("O1", "P2"); ("O2", "P1")].
Proof.
  split_and!.
  - rewrite df_order_details_keys. apply groupby_keys_sorted.
  - intros df' Hperm. rewrite !df_order_details_keys.
    by apply groupby_keys_Permutation_invariant.
  - apply (drop_duplicates_keys Customers.CustomerID customer_columns).
  - apply (drop_duplicates_keys Locations.PostalCode location_columns).
  - apply df_categories_names.
  - apply df_sub_categories_names.
  - apply df_products_order.
  - apply (drop_duplicates_keys Orders.OrderID order_columns).
  - by vm_compute.
  - by vm_compute.
Qed.

(** Reversing [descending_input] does not change the order of the keys. *)
Lemma order_details_sorted_by_key_witness :
  descending_input ≡ₚ reverse descending_input
  ∧ detail_key <$> df_order_details descending_input
    = detail_key <$> df_order_details (reverse descending_input).
Proof.
  assert (descending_input ≡ₚ reverse descending_input) as Hperm
    by (symmetry; apply reverse_Permutation).
  split; [exact Hperm |].
  exact (proj1 (proj2 (order_details_sorted_by_key descending_input)) _ Hperm).
Defined.

(** * Further properties of the normaliser *)

(** ** References from orders and order details *)

Lemma drop_duplicates_fmap_elem {A B K} `{Countable K} (key : A → K) (f : B → A)
    (l : list B) (x : A) :
  x ∈ drop_duplicates key (f <$> l) → ∃ r, r ∈ l ∧ x = f r.
Proof.
  intros [Hx _]%dedup_from_elem_key.
  apply list_elem_of_fmap in Hx as (r & -> & Hr). eauto.
Qed.

(** X1. Every row of the orders table refers to a customer of the customers
    table and to a postal code of the locations table. *)
Theorem orders_reference_customers_and_locations (df : DataFrame) :
  Forall (λ o, Orders.CustomerID o ∈ Customers.CustomerID <$> df_customers df
               ∧ Orders.PostalCode o ∈ Locations.PostalCode <$> df_locations df)
         (df_orders df).
Proof.
  apply Forall_forall. intros o (r & Hr & ->)%drop_duplicates_fmap_elem. split.
  - apply drop_duplicates_keys_elem.
    change (Orders.CustomerID (order_columns r))
      with (Customers.CustomerID (customer_columns r)).
    by apply list_elem_of_fmap_2, list_elem_of_fmap_2.
  - apply drop_duplicates_keys_elem.
    change (Orders.PostalCode (order_columns r))
      with (Locations.PostalCode (location_columns r)).
    by apply list_elem_of_fmap_2, list_elem_of_fmap_2.
Qed.

(** X2. Every row of the order-details table refers to an order of the
    orders table and to a product of the products table. *)
Theorem order_details_reference_orders_and_products (df : DataFrame) :
  Forall (λ d, OrderDetails.OrderID d ∈ Orders.OrderID <$> df_orders df
               ∧ OrderDetails.ProductID d ∈ Products.ProductID <$> df_products df)
         (df_order_details df).
Proof.
  apply Forall_forall. intros d [Hkey _]%df_order_details_elem.
  apply list_elem_of_fmap in Hkey as (r & Hd & Hr).
  apply (f_equal fst) in Hd as Horder. apply (f_equal snd) in Hd as Hproduct.
  simpl in Horder, Hproduct. rewrite Horder, Hproduct. split.
  - apply drop_duplicates_keys_elem.
    change (Raw.Order_ID r) with (Orders.OrderID (order_columns r)).
    by apply list_elem_of_fmap_2, list_elem_of_fmap_2.
  - by apply df_products_covers.
Qed.

(** ** Table sizes *)

Lemma dedup_from_length_le {A K} `{Countable K} (key : A → K) (seen : gset K) (l : list A) :
  (length (dedup_from key seen l) ≤ length l)%nat.
Proof.
  revert seen. induction l as [|x l IH]; intros seen; simpl; [done |].
  destruct (decide (key x ∈ seen)); simpl.
  - etrans; [apply IH | lia].
  - apply le_n_S, IH.
Qed.

Lemma ndistinct_le {K} `{Countable K} (l : list K) : (ndistinct l ≤ length l)%nat.
Proof. rewrite <-unique_length. apply dedup_from_length_le. Qed.

Lemma drop_duplicates_fmap_length {A B K} `{Countable K} (key : A → K) (f : B → A)
    (l : list B) :
  length (drop_duplicates key (f <$> l)) = ndistinct ((λ r, key (f r)) <$> l).
Proof.
  rewrite <-(length_fmap key), drop_duplicates_keys. apply unique_length.
Qed.

(** X3. The customers, locations, categories, sub-categories and orders
    tables have exactly one row per distinct key value of the input
    (customer, postal code, category name, category and sub-category pair,
    order); neither they nor the order-details table have more rows than
    the input. *)
Theorem table_sizes (df : DataFrame) :
  (length (df_customers df) = ndistinct (Raw.Customer_ID <$> df)
   ∧ length (df_locations df) = ndistinct (Raw.Postal_Code <$> df)
   ∧ length (df_categories df) = ndistinct (Raw.Category <$> df)
   ∧ length (df_sub_categories df) = ndistinct (category_pair <$> df)
   ∧ length (df_orders df) = ndistinct (Raw.Order_ID <$> df))
  ∧ (length (df_customers df) ≤ length df
     ∧ length (df_locations df) ≤ length df
     ∧ length (df_categories df) ≤ length df
     ∧ length (df_sub_categories df) ≤ length df
     ∧ length (df_orders df) ≤ length df
     ∧ length (df_order_details df) ≤ length df)%nat.
Proof.
  assert (length (df_customers df) = ndistinct (Raw.Customer_ID <$> df)) as H1
    by apply (drop_duplicates_fmap_length Customers.CustomerID customer_columns).
  assert (length (df_locations df) = ndistinct (Raw.Postal_Code <$> df)) as H2
    by apply (drop_duplicates_fmap_length Locations.PostalCode location_columns).
  assert (length (df_categories df) = ndistinct (Raw.Category <$> df)) as H3
    by (unfold df_categories; by rewrite length_imap, unique_length).
  assert (length (df_sub_categories df) = ndistinct (category_pair <$> df)) as H4
    by (by rewrite df_sub_categories_eq, length_imap, unique_length).
  assert (length (df_orders df) = ndistinct (Raw.Order_ID <$> df)) as H5
    by apply (drop_duplicates_fmap_length Orders.OrderID order_columns).
  assert (length (df_order_details df) = ndistinct (order_key <$> df)) as H6.
  { rewrite <-(length_fmap detail_key), df_order_details_keys.
    rewrite groupby_keys_Permutation. apply unique_length. }
  split; [done |]. rewrite H1, H2, H3, H4, H5, H6.
  split_and!; (etrans; [apply ndistinct_le | by rewrite length_fmap]).
Qed.

(** ** The products table *)

(** The rows kept by a deduplication are the first rows of their keys. *)
Lemma drop_duplicates_fmap_first {A B K} `{Countable K} (key : A → K) (f : B → A)
    (l : list B) (x : A) :
  x ∈ drop_duplicates key (f <$> l)
  ↔ ∃ i r, list_find (λ r, key (f r) = key x) l = Some (i, r) ∧ x = f r.
Proof.
  assert (x ∈ drop_duplicates key (f <$> l)
          ↔ x ∈ filter (λ y, key y = key x) (drop_duplicates key (f <$> l))) as ->.
  { rewrite list_elem_of_filter. naive_solver. }
  rewrite drop_duplicates_fmap_filter.
  destruct (list_find _ l) as [[i r]|]; simpl.
  - rewrite list_elem_of_singleton. naive_solver.
  - rewrite elem_of_nil. naive_solver.
Qed.

Lemma df_products_elem df p :
  p ∈ df_products df
  ↔ ∃ i r s,
      list_find (λ x, Raw.Product_ID x = Products.ProductID p) df = Some (i, r)
      ∧ Products.ProductName p = Raw.Product_Name r
      ∧ s ∈ df_sub_categories df
      ∧ SubCategories.SubCategoryName s = Raw.Sub_Category r
      ∧ Products.SubCategoryID p = SubCategories.SubCategoryID s.
Proof.
  unfold df_products, products_step. rewrite merge_elem.
  set (columns := λ r, (Raw.Product_ID r, Raw.Product_Name r, Raw.Sub_Category r)).
  split.
  - intros (l & x & Hl & Hx & Hname & ->). simpl.
    apply (drop_duplicates_fmap_first
             (λ p : string * string * string, p.1.1) columns) in Hl
      as (i & r & Hfind & ->).
    apply list_elem_of_fmap in Hx as (s & -> & Hs). simpl in *.
    exists i, r, s. by split_and!.
  - intros (i & r & s & Hfind & Hpname & Hs & Hname & Hid).
    exists (columns r), (SubCategories.SubCategoryID s, SubCategories.SubCategoryName s).
    split_and!.
    + apply (drop_duplicates_fmap_first
               (λ p : string * string * string, p.1.1) columns).
      exists i, r. split; [| done].
      pose proof Hfind as (_ & Heq & _)%list_find_Some.
      unfold columns. simpl. by rewrite Heq.
    + by apply (list_elem_of_fmap_2
                  (λ s, (SubCategories.SubCategoryID s, SubCategories.SubCategoryName s))).
    + done.
    + destruct p as [pid pname sid]. simpl in *. subst.
      apply list_find_Some in Hfind as (_ & -> & _). done.
Qed.

Lemma filter_fmap_length {A K} `{EqDecision K} (f : A → K) (k : K) (l : list A) :
  length (filter (λ y, y = k) (f <$> l)) = length (filter (λ x, f x = k) l).
Proof.
  induction l as [|x l IH]; [done |].
  rewrite fmap_cons, !filter_cons. destruct (decide (f x = k)); simpl; by rewrite IH.
Qed.

Lemma filter_bind_blocks {A B K} `{EqDecision K} (key : A → K) (block : A → list B)
    (k : K) (l : list A) :
  filter (λ y, y = k) (l ≫= λ x, (λ _, key x) <$> block x)
  = filter (λ x, key x = k) l ≫= λ x, (λ _, key x) <$> block x.
Proof.
  induction l as [|x l IH]; [done |].
  rewrite bind_cons, filter_app, IH, filter_cons.
  destruct (decide (key x = k)) as [Hk|Hk].
  - rewrite bind_cons. f_equal.
    induction (block x) as [|b bs IHb]; [done |].
    rewrite fmap_cons, filter_cons_True by done. by rewrite IHb.
  - replace (filter (λ y, y = k) ((λ _, key x) <$> block x)) with (@nil K); [done |].
    induction (block x) as [|b bs IHb]; [done |].
    rewrite fmap_cons, filter_cons_False by done. exact IHb.
Qed.

(** X5. The products table holds, for each product of the input, one row
    per sub-categories row that bears the sub-category name of the
    product's first input row: such a row carries the product name of that
    first row and the SubCategoryID of that sub-categories row, and there
    are no other rows. *)
Theorem products_one_row_per_matching_sub_category (df : DataFrame) :
  (∀ p, p ∈ df_products df
        ↔ ∃ i r s,
            list_find (λ x, Raw.Product_ID x = Products.ProductID p) df = Some (i, r)
            ∧ Products.ProductName p = Raw.Product_Name r
            ∧ s ∈ df_sub_categories df
            ∧ SubCategories.SubCategoryName s = Raw.Sub_Category r
            ∧ Products.SubCategoryID p = SubCategories.SubCategoryID s)
  ∧ (∀ k, length (filter (λ p, Products.ProductID p = k) (df_products df))
          = from_option
              (λ hit : nat * Raw.row,
                 length (filter (λ s, SubCategories.SubCategoryName s
                                      = Raw.Sub_Category hit.2)
                                (df_sub_categories df)))
              0%nat
              (list_find (λ r, Raw.Product_ID r = k) df)).
Proof.
  split; [apply df_products_elem |]. intros k.
  rewrite <-filter_fmap_length. unfold df_products, products_step.
  set (columns := λ r, (Raw.Product_ID r, Raw.Product_Name r, Raw.Sub_Category r)).
  rewrite (merge_left_column _ _ _ Products.ProductID
             (λ p : string * string * string, p.1.1)) by done.
  rewrite (filter_bind_blocks (λ p : string * string * string, p.1.1)).
  rewrite (drop_duplicates_fmap_filter columns (λ p : string * string * string, p.1.1)).
  change (λ x, (columns x).1.1 = k) with (λ x, Raw.Product_ID x = k).
  destruct (list_find _ df) as [[i r]|]; [| done].
  cbn [fmap option_fmap option_map option_list from_option compose snd].
  change (option_list (Some (columns r))) with [columns r].
  rewrite bind_cons, app_nil_r, length_fmap.
  cbn [columns snd].
  rewrite <-(filter_fmap_length SubCategories.SubCategoryName).
  rewrite <-(filter_fmap_length snd), <-list_fmap_compose. done.
Qed.

(** The sub-categories row of an input row, with its IDs by rank. *)
Lemma df_sub_categories_covers_rank df r :
  r ∈ df →
  {| SubCategories.SubCategoryID := sub_category_id df (category_pair r);
     SubCategories.SubCategoryName := Raw.Sub_Category r;
     SubCategories.CategoryID := category_id df (Raw.Category r) |}
  ∈ df_sub_categories df.
Proof.
  intros Hr.
  assert (category_pair r ∈ category_pair <$> df) as Hpair
    by (by apply list_elem_of_fmap_2).
  destruct (rank_of_first_appearance_is_Some _ _ Hpair) as [n Hn].
  rewrite df_sub_categories_eq. apply elem_of_lookup_imap.
  exists n, (category_pair r). split; [| by apply unique_lookup_rank].
  unfold sub_category_id. by rewrite Hn.
Qed.

Lemma unambiguous_names_NoDup df :
  unambiguous df → NoDup (SubCategories.SubCategoryName <$> df_sub_categories df).
Proof.
  intros Hunamb. rewrite df_sub_categories_names.
  apply NoDup_fmap_2_strong; [| apply unique_NoDup].
  intros [c1 s1] [c2 s2] H1 H2 Hsnd. simpl in Hsnd. subst s2.
  rewrite unique_elem in H1, H2.
  apply list_elem_of_fmap in H1 as (r1 & [= -> ->] & Hr1).
  apply list_elem_of_fmap in H2 as (r2 & [= -> Heq] & Hr2).
  f_equal. symmetry. by apply Hunamb.
Qed.

(** X6. When no sub-category name of the input occurs under two
    categories, the products table has exactly one row per distinct
    ProductID: the ProductID, the product name of the first input row with
    that ProductID, and the SubCategoryID of that row's (category,
    sub-category) pair. *)
Theorem products_first_wins_when_unambiguous (df : DataFrame) :
  unambiguous df →
  NoDup (Products.ProductID <$> df_products df)
  ∧ length (df_products df) = ndistinct (Raw.Product_ID <$> df)
  ∧ (∀ k, filter (λ p, Products.ProductID p = k) (df_products df)
          = option_list
              ((λ hit : nat * Raw.row,
                  {| Products.ProductID := k;
                     Products.ProductName := Raw.Product_Name hit.2;
                     Products.SubCategoryID := sub_category_id df (category_pair hit.2) |})
                 <$> list_find (λ r, Raw.Product_ID r = k) df)).
Proof.
  intros Hunamb.
  pose proof (df_products_NoDup df (unambiguous_names_NoDup df Hunamb)) as Hnd.
  split_and!; [done | |].
  - rewrite <-(length_fmap Products.ProductID), <-unique_length.
    apply Permutation_length, NoDup_Permutation; [done | apply unique_NoDup |].
    intros k. rewrite unique_elem. split.
    + intros (p & -> & (i & r & _ & Hfind & _)%df_products_elem)%list_elem_of_fmap.
      apply list_find_Some in Hfind as (Hi & <- & _).
      by eapply list_elem_of_fmap_2, list_elem_of_lookup_2.
    + intros (r & -> & Hr)%list_elem_of_fmap. by apply df_products_covers.
  - intros k. destruct (list_find _ df) as [[i r]|] eqn:Hfind; simpl.
    + pose proof Hfind as (Hi & Hk & _)%list_find_Some.
      set (p := {| Products.ProductID := k;
                   Products.ProductName := Raw.Product_Name r;
                   Products.SubCategoryID := sub_category_id df (category_pair r) |}).
      apply (filter_key_NoDup Products.ProductID (df_products df) p Hnd).
      apply df_products_elem.
      exists i, r,
        {| SubCategories.SubCategoryID := sub_category_id df (category_pair r);
           SubCategories.SubCategoryName := Raw.Sub_Category r;
           SubCategories.CategoryID := category_id df (Raw.Category r) |}.
      split_and!; [exact Hfind | done | | done | done].
      apply df_sub_categories_covers_rank. by eapply list_elem_of_lookup_2.
    + apply filter_key_absent.
      intros (p & -> & (i & r & _ & Hfind' & _)%df_products_elem)%list_elem_of_fmap.
      by rewrite Hfind in Hfind'.
Qed.

(** [hierarchy_input] is unambiguous, and the theorem gives its products. *)
Lemma products_first_wins_when_unambiguous_witness :
  unambiguous hierarchy_input
  ∧ NoDup (Products.ProductID <$> df_products hierarchy_input)
  ∧ length (df_products hierarchy_input) = ndistinct (Raw.Product_ID <$> hierarchy_input)
  ∧ (∀ k, filter (λ p, Products.ProductID p = k) (df_products hierarchy_input)
          = option_list
              ((λ hit : nat * Raw.row,
                  {| Products.ProductID := k;
                     Products.ProductName := Raw.Product_Name hit.2;
                     Products.SubCategoryID :=
                       sub_category_id hierarchy_input (category_pair hit.2) |})
                 <$> list_find (λ r, Raw.Product_ID r = k) hierarchy_input)).
Proof.
  assert (unambiguous hierarchy_input) as Hunamb.
  { intros r1 r2 Hr1 Hr2. unfold hierarchy_input in Hr1, Hr2.
    repeat (apply elem_of_cons in Hr1 as [->|Hr1]);
      [| | | by apply elem_of_nil in Hr1];
      (repeat (apply elem_of_cons in Hr2 as [->|Hr2]);
         [| | | by apply elem_of_nil in Hr2]);
      simpl; intros Heq; (done || discriminate). }
  split; [exact Hunamb |].
  exact (products_first_wins_when_unambiguous hierarchy_input Hunamb).
Defined.

(** ** Keys of the category tables *)

Lemma category_id_inj df c1 c2 :
  c1 ∈ Raw.Category <$> df → c2 ∈ Raw.Category <$> df →
  category_id df c1 = category_id df c2 → c1 = c2.
Proof.
  intros H1 H2. unfold category_id.
  destruct (rank_of_first_appearance_is_Some _ _ H1) as [n1 Hn1].
  destruct (rank_of_first_appearance_is_Some _ _ H2) as [n2 Hn2].
  rewrite Hn1, Hn2. simpl. intros Heq.
  assert (n1 = n2) as -> by lia.
  apply unique_lookup_rank in Hn1, Hn2. congruence.
Qed.

(** X7. The surrogate keys are keys: no CategoryID, no category name and
    no SubCategoryID occurs twice in its table, and no two sub-categories
    rows have both the same CategoryID and the same name. *)
Theorem surrogate_keys_unique (df : DataFrame) :
  NoDup (Categories.CategoryID <$> df_categories df)
  ∧ NoDup (Categories.CategoryName <$> df_categories df)
  ∧ NoDup (SubCategories.SubCategoryID <$> df_sub_categories df)
  ∧ NoDup ((λ s, (SubCategories.CategoryID s, SubCategories.SubCategoryName s))
             <$> df_sub_categories df).
Proof.
  split_and!.
  - rewrite df_categories_ids. apply (NoDup_fmap_2 _), NoDup_seq.
  - rewrite df_categories_names. apply unique_NoDup.
  - rewrite df_sub_categories_ids. apply (NoDup_fmap_2 _), NoDup_seq.
  - rewrite df_sub_categories_eq, fmap_imap.
    rewrite (imap_ext _ (const (λ p : string * string, (category_id df p.1, p.2))))
      by done.
    rewrite imap_const.
    apply NoDup_fmap_2_strong; [| apply unique_NoDup].
    intros [c1 s1] [c2 s2] H1 H2 [= Hid ->]. f_equal.
    rewrite unique_elem in H1, H2.
    apply list_elem_of_fmap in H1 as (r1 & [= -> _] & Hr1).
    apply list_elem_of_fmap in H2 as (r2 & [= -> _] & Hr2).
    apply (category_id_inj df); [by apply list_elem_of_fmap_2.. | done].
Qed.

(** ** Appending rows to the input *)

Lemma drop_duplicates_app_prefix {A K} `{Countable K} (key : A → K) (l m : list A) :
  drop_duplicates key l `prefix_of` drop_duplicates key (l ++ m).
Proof. unfold drop_duplicates. rewrite dedup_from_app. by eexists. Qed.

Lemma rank_of_first_appearance_app {K} `{Countable K} (k : K) (l m : list K) :
  k ∈ l → rank_of_first_appearance k (l ++ m) = rank_of_first_appearance k l.
Proof.
  intros Hk. unfold rank_of_first_appearance.
  destruct (list_find_elem_of (λ v, v = k) l k Hk eq_refl) as [[i k'] Hfind].
  rewrite (list_find_app_l _ _ _ _ _ Hfind), Hfind. simpl.
  apply list_find_Some in Hfind as (Hi & _ & _).
  apply lookup_lt_Some in Hi. by rewrite take_app_le by lia.
Qed.

(** X8. Rows appended to the input never change what the earlier rows
    produced: the customers, locations, categories, sub-categories and
    orders tables of the shorter input are initial segments of the tables
    of the longer one, so every row keeps its position and its surrogate
    key. *)
Theorem appending_rows_extends_tables (df more : DataFrame) :
  df_customers df `prefix_of` df_customers (df ++ more)
  ∧ df_locations df `prefix_of` df_locations (df ++ more)
  ∧ df_categories df `prefix_of` df_categories (df ++ more)
  ∧ df_sub_categories df `prefix_of` df_sub_categories (df ++ more)
  ∧ df_orders df `prefix_of` df_orders (df ++ more).
Proof.
  split_and!.
  - unfold df_customers. rewrite fmap_app. apply drop_duplicates_app_prefix.
  - unfold df_locations. rewrite fmap_app. apply drop_duplicates_app_prefix.
  - unfold df_categories, unique, drop_duplicates.
    rewrite fmap_app, dedup_from_app, imap_app. by eexists.
  - rewrite !df_sub_categories_eq. unfold unique, drop_duplicates.
    rewrite (fmap_app category_pair), dedup_from_app, imap_app.
    eexists. f_equal. apply imap_ext. intros index p Hp. simpl. f_equal.
    unfold category_id. rewrite fmap_app, rank_of_first_appearance_app; [done |].
    apply list_elem_of_lookup_2 in Hp.
    apply (unique_elem (category_pair <$> df)) in Hp.
    apply list_elem_of_fmap in Hp as (r & -> & Hr).
    by apply (list_elem_of_fmap_2 Raw.Category).
  - unfold df_orders. rewrite fmap_app. apply drop_duplicates_app_prefix.
Qed.

(** ** Dependence on the row order *)

(** X9. CategoryIDs follow the order of the rows: when the first two rows
    are of different categories, the first row's category gets 1 and the
    second row's category 2, so exchanging the two rows exchanges the two
    CategoryIDs. *)
Theorem category_ids_follow_row_order (r1 r2 : Raw.row) (rest : DataFrame) :
  Raw.Category r1 ≠ Raw.Category r2 →
  take 2 (df_categories (r1 :: r2 :: rest))
    = [ {| Categories.CategoryID := 1; Categories.CategoryName := Raw.Category r1 |};
        {| Categories.CategoryID := 2; Categories.CategoryName := Raw.Category r2 |} ]
  ∧ take 2 (df_categories (r2 :: r1 :: rest))
    = [ {| Categories.CategoryID := 1; Categories.CategoryName := Raw.Category r2 |};
        {| Categories.CategoryID := 2; Categories.CategoryName := Raw.Category r1 |} ].
Proof.
  intros Hne.
  assert (∀ a b l, Raw.Category a ≠ Raw.Category b →
            take 2 (df_categories (a :: b :: l))
            = [ {| Categories.CategoryID := 1; Categories.CategoryName := Raw.Category a |};
                {| Categories.CategoryID := 2; Categories.CategoryName := Raw.Category b |} ])
    as Hfirst.
  { intros a b l Hab. unfold df_categories, unique, drop_duplicates.
    rewrite !fmap_cons. cbn [dedup_from]. unfold id at 1 2.
    rewrite decide_False by set_solver.
    unfold id at 1 2. rewrite decide_False by set_solver. done. }
  split; apply Hfirst; [done | by intros Heq].
Qed.

Lemma category_ids_follow_row_order_witness :
  Raw.Category (line_item "Furniture" "Chairs" "P1" "O1" 10 1 0 2)
  ≠ Raw.Category (line_item "Office Supplies" "Paper" "P2" "O1" 20 2 0 4)
  ∧ take 2 (df_categories hierarchy_input)
    = [ {| Categories.CategoryID := 1; Categories.CategoryName := "Furniture" |};
        {| Categories.CategoryID := 2; Categories.CategoryName := "Office Supplies" |} ].
Proof.
  assert (Raw.Category (line_item "Furniture" "Chairs" "P1" "O1" 10 1 0 2)
          ≠ Raw.Category (line_item "Office Supplies" "Paper" "P2" "O1" 20 2 0 4))
    as Hne by (simpl; discriminate).
  split; [exact Hne |].
  exact (proj1 (category_ids_follow_row_order _ _
                  [line_item "Furniture" "Tables" "P3" "O2" 30 3 0 6] Hne)).
Defined.

(** ** Measures of the order details *)

(** X14. A line item that is the only one of its order and product passes
    through unchanged: its order-details row has the Sales, Quantity,
    Discount and Profit of that input row. *)
Theorem single_line_item_unchanged (df : DataFrame) (r : Raw.row) :
  filter (λ x, order_key x = order_key r) df = [r] →
  ∃ d, filter (λ d, detail_key d = order_key r) (df_order_details df) = [d]
       ∧ (OrderDetails.Sales d == Raw.Sales r)%Q
       ∧ OrderDetails.Quantity d = Raw.Quantity r
       ∧ (OrderDetails.Discount d == Raw.Discount r)%Q
       ∧ (OrderDetails.Profit d == Raw.Profit r)%Q.
Proof.
  intros Hgroup. exists (agg (order_key r, [r])). split_and!.
  - apply (filter_key_NoDup detail_key (df_order_details df) (agg (order_key r, [r]))).
    + rewrite df_order_details_keys. apply groupby_keys_NoDup.
    + apply df_order_details_elem. rewrite detail_key_agg. simpl. split.
      * apply list_elem_of_fmap_2.
        assert (r ∈ filter (λ x, order_key x = order_key r) df) as Hin
          by (rewrite Hgroup; left).
        by apply list_elem_of_filter in Hin as [_ Hin].
      * by rewrite Hgroup.
  - simpl. apply Qplus_0_r.
  - cbn [agg OrderDetails.Quantity snd fmap list_fmap].
    rewrite sum_int64_wrap. cbn [fmap list_fmap foldr].
    rewrite Z.add_0_r. apply wrap64_id, int64_in_range.
  - cbn [agg OrderDetails.Discount snd fmap list_fmap]. unfold meanQ.
    cbn [sumQ foldr length]. rewrite Qplus_0_r.
    change (inject_Z (Z.of_nat 1)) with 1%Q. unfold Qdiv.
    change (/ 1)%Q with 1%Q. apply Qmult_1_r.
  - simpl. apply Qplus_0_r.
Qed.

Lemma single_line_item_unchanged_witness :
  let r := line_item "Furniture" "Chairs" "P1" "O2" 10 1 0 2 in
  filter (λ x, order_key x = order_key r) descending_input = [r]
  ∧ ∃ d, filter (λ d, detail_key d = order_key r) (df_order_details descending_input) = [d]
         ∧ (OrderDetails.Sales d == Raw.Sales r)%Q
         ∧ OrderDetails.Quantity d = Raw.Quantity r
         ∧ (OrderDetails.Discount d == Raw.Discount r)%Q
         ∧ (OrderDetails.Profit d == Raw.Profit r)%Q.
Proof.
  intros r.
  assert (filter (λ x, order_key x = order_key r) descending_input = [r]) as Hgroup
    by (by vm_compute).
  split; [exact Hgroup |].
  exact (single_line_item_unchanged descending_input r Hgroup).
Defined.

(** ** What a run leaves alone *)

(** X10. A run changes no file other than its seven outputs, adds no
    directory other than the output directory, and keeps what was printed
    before; in particular the input file is left as it is unless its path
    is one of the seven. *)
Theorem run_touches_only_its_outputs
    (path : string) (read : ReadResult) (w : World) (other : string) :
  other ∉ output_paths →
  files (normalize_superstore_data path read w) !! other = files w !! other
  ∧ dirs w ⊆ dirs (normalize_superstore_data path read w)
  ∧ dirs (normalize_superstore_data path read w) ⊆ {[output_dir]} ∪ dirs w
  ∧ stdout w `prefix_of` stdout (normalize_superstore_data path read w).
Proof.
  intros Hother. destruct read as [df| |e].
  - split_and!.
    + rewrite normalize_files. unfold written.
      unfold output_paths in Hother. rewrite !fmap_cons, !not_elem_of_cons in Hother.
      destruct Hother as (? & ? & ? & ? & ? & ? & ? & _).
      by rewrite !lookup_insert_ne by done.
    + rewrite normalize_dirs. destruct (path_exists output_dir w); set_solver.
    + rewrite normalize_dirs. destruct (path_exists output_dir w); set_solver.
    + unfold normalize_superstore_data.
      destruct (path_exists output_dir _); cbn [stdout print to_csv makedirs];
        rewrite <-!(assoc (++)); by eexists.
  - split_and!; [done | set_solver | set_solver | by eexists].
  - split_and!; [done | set_solver | set_solver | by eexists].
Qed.

Lemma run_touches_only_its_outputs_witness :
  ("Sample - Superstore.csv" ∉ output_paths)
  ∧ files (normalize_superstore_data "Sample - Superstore.csv"
             (Loaded hierarchy_input) empty_world) !! "Sample - Superstore.csv"
    = files empty_world !! "Sample - Superstore.csv".
Proof.
  assert ("Sample - Superstore.csv" ∉ output_paths) as Hother.
  { unfold output_paths. rewrite !fmap_cons, !not_elem_of_cons.
    split_and!; [by vm_compute.. |]. apply not_elem_of_nil. }
  split; [exact Hother |].
  exact (proj1 (run_touches_only_its_outputs _ (Loaded hierarchy_input)
                  empty_world _ Hother)).
Defined.

(** ** Reordering the input *)

Lemma unique_Permutation {K} `{Countable K} (l l' : list K) :
  l ≡ₚ l' → unique l ≡ₚ unique l'.
Proof.
  intros Hperm. apply NoDup_Permutation; [apply unique_NoDup.. |].
  intros k. by rewrite !unique_elem, Hperm.
Qed.

Lemma sum_int64_Permutation (xs ys : list int64) :
  xs ≡ₚ ys → sum_int64 xs = sum_int64 ys.
Proof.
  intros Hperm. rewrite !sum_int64_wrap. f_equal.
  assert (int64_to_Z <$> xs ≡ₚ int64_to_Z <$> ys) as Hz by (by apply fmap_Permutation).
  clear Hperm. induction Hz; simpl; lia.
Qed.

Lemma df_order_details_quantities df :
  OrderDetails.Quantity <$> df_order_details df
  = (λ k, sum_int64 (Raw.Quantity <$> filter (λ r, order_key r = k) df))
      <$> (detail_key <$> df_order_details df).
Proof.
  rewrite df_order_details_keys. unfold df_order_details, groupby.
  by rewrite <-!list_fmap_compose.
Qed.

(** X11. Reordering the input rows changes neither which keys the tables
    hold nor the order-details quantities: the key columns of customers,
    locations, categories, sub-category names and orders are permutations
    of one another, and the order-details table has the same keys in the
    same order with the same Quantity. *)
Theorem reordering_keeps_keys (df df' : DataFrame) :
  df ≡ₚ df' →
  Customers.CustomerID <$> df_customers df ≡ₚ Customers.CustomerID <$> df_customers df'
  ∧ Locations.PostalCode <$> df_locations df ≡ₚ Locations.PostalCode <$> df_locations df'
  ∧ Categories.CategoryName <$> df_categories df
    ≡ₚ Categories.CategoryName <$> df_categories df'
  ∧ SubCategories.SubCategoryName <$> df_sub_categories df
    ≡ₚ SubCategories.SubCategoryName <$> df_sub_categories df'
  ∧ Orders.OrderID <$> df_orders df ≡ₚ Orders.OrderID <$> df_orders df'
  ∧ detail_key <$> df_order_details df = detail_key <$> df_order_details df'
  ∧ OrderDetails.Quantity <$> df_order_details df
    = OrderDetails.Quantity <$> df_order_details df'.
Proof.
  intros Hperm.
  assert (detail_key <$> df_order_details df = detail_key <$> df_order_details df')
    as Hkeys.
  { rewrite !df_order_details_keys. by apply groupby_keys_Permutation_invariant. }
  split_and!.
  - unfold df_customers.
    rewrite !(drop_duplicates_keys Customers.CustomerID customer_columns).
    by apply unique_Permutation, fmap_Permutation.
  - unfold df_locations.
    rewrite !(drop_duplicates_keys Locations.PostalCode location_columns).
    by apply unique_Permutation, fmap_Permutation.
  - rewrite !df_categories_names. by apply unique_Permutation, fmap_Permutation.
  - rewrite !df_sub_categories_names.
    by apply fmap_Permutation, unique_Permutation, fmap_Permutation.
  - unfold df_orders.
    rewrite !(drop_duplicates_keys Orders.OrderID order_columns).
    by apply unique_Permutation, fmap_Permutation.
  - done.
  - rewrite !df_order_details_quantities, Hkeys.
    apply list_fmap_ext. intros _ k _.
    apply sum_int64_Permutation, fmap_Permutation. by rewrite Hperm.
Qed.

Lemma reordering_keeps_keys_witness :
  descending_input ≡ₚ reverse descending_input
  ∧ OrderDetails.Quantity <$> df_order_details descending_input
    = OrderDetails.Quantity <$> df_order_details (reverse descending_input).
Proof.
  assert (descending_input ≡ₚ reverse descending_input) as Hperm
    by (symmetry; apply reverse_Permutation).
  split; [exact Hperm |].
  destruct (reordering_keeps_keys _ _ Hperm) as (_ & _ & _ & _ & _ & _ & Hq).
  exact Hq.
Defined.

(** * The dashboard's customer selection *)



